(** * Verification of the step-execution engine of [complete_automation.py]

    A shallow embedding of [CompleteAutomationTool]: the pattern-based
    planner ([_extract_search_query], [_create_pattern_plan]), the step
    executor ([_execute_step] and the actions it dispatches to) and the
    session driver ([execute_automation], [_init_browser],
    [_cleanup_browser]).

    Strings.  A Python [str] is modelled as a [string] whose characters
    are the code points 0..255 (the Latin-1 range); [lower], [isspace] and
    the regular-expression classes below are the restrictions of Python's
    Unicode definitions to that range. *)

From Stdlib Require Import Bool List ZArith NArith Arith Lia.
From Stdlib Require Import Ascii String.
Import ListNotations.

Open Scope string_scope.
Open Scope list_scope.

(* ================================================================== *)
(** * Python string builtins                                           *)
(* ================================================================== *)

Module PyStr.

(** [str.isspace] on one code point: TAB..CR, FS..US, SPACE, NEL, NBSP. *)
Definition isspace (c : ascii) : bool :=
  let n := N_of_ascii c in
  (((9 <=? n) && (n <=? 13)) || ((28 <=? n) && (n <=? 32))
   || (n =? 133) || (n =? 160))%N.

(** [str.lower] on one code point: A..Z and the Latin-1 capitals
    (all of 0xC0..0xDE but the multiplication sign 0xD7). *)
Definition lower_char (c : ascii) : ascii :=
  let n := N_of_ascii c in
  if (((65 <=? n) && (n <=? 90))
      || ((192 <=? n) && (n <=? 222) && negb (n =? 215)))%N
  then ascii_of_N (n + 32) else c.

Fixpoint lower (s : string) : string :=
  match s with
  | EmptyString => EmptyString
  | String c s' => String (lower_char c) (lower s')
  end.

(** [s.startswith(p)] *)
Definition startswith (s p : string) : bool := String.prefix p s.

(** [s.endswith(suf)] *)
Fixpoint endswith (s suf : string) : bool :=
  (s =? suf) ||
  match s with
  | EmptyString => false
  | String _ s' => endswith s' suf
  end.

(** [sub in s] *)
Fixpoint str_in (sub s : string) : bool :=
  String.prefix sub s ||
  match s with
  | EmptyString => false
  | String _ s' => str_in sub s'
  end.

(** [x in xs] for a list or set of strings *)
Definition mem (x : string) (xs : list string) : bool :=
  existsb (String.eqb x) xs.

Definition starts_word (s : string) : bool :=
  match s with
  | EmptyString => false
  | String c _ => negb (isspace c)
  end.

(** [s.split()]: the maximal runs of non-whitespace characters. *)
Fixpoint split (s : string) : list string :=
  match s with
  | EmptyString => []
  | String c s' =>
      if isspace c then split s'
      else if starts_word s' then
             match split s' with
             | w :: ws => String c w :: ws
             | [] => [String c EmptyString]
             end
           else String c EmptyString :: split s'
  end.

Fixpoint lstrip (s : string) : string :=
  match s with
  | EmptyString => EmptyString
  | String c s' => if isspace c then lstrip s' else s
  end.

Fixpoint rstrip (s : string) : string :=
  match s with
  | EmptyString => EmptyString
  | String c s' =>
      match rstrip s' with
      | EmptyString => if isspace c then EmptyString
                       else String c EmptyString
      | r => String c r
      end
  end.

(** [s.strip()] *)
Definition strip (s : string) : string := rstrip (lstrip s).

(** [sep.join(ws)] *)
Definition join (sep : string) (ws : list string) : string :=
  String.concat sep ws.

(** Python truthiness of a [str] *)
Definition truthy (s : string) : bool :=
  match s with EmptyString => false | _ => true end.

(** Truthiness of an [Optional[str]] *)
Definition otruthy (o : option string) : bool :=
  match o with Some s => truthy s | None => false end.

End PyStr.

(* ================================================================== *)
(** * The fragment of [re] the planner uses                            *)
(* ================================================================== *)

Module Re.

(** Pattern syntax: literals, the repetitions of a character class that
    occur in the source's patterns, a capturing group, sequence, ordered
    alternation and the end anchor. *)
Inductive regex : Type :=
| Lit (s : string)
| OptG (p : ascii -> bool)      (* [c]?  greedy *)
| StarG (p : ascii -> bool)     (* [c]*  greedy *)
| PlusG (p : ascii -> bool)     (* [c]+  greedy *)
| PlusL (p : ascii -> bool)     (* [c]+? lazy   *)
| Group (r : regex)             (* ( r ), group 1 *)
| Seq (r1 r2 : regex)
| Alt (r1 r2 : regex)
| Eol.                          (* $ *)

Definition orelse {X} (a : option X) (b : option X) : option X :=
  match a with Some x => Some x | None => b end.

(** [strip_prefix p s]: the rest of [s] after the literal [p]. *)
Fixpoint strip_prefix (p s : string) : option string :=
  match p with
  | EmptyString => Some s
  | String a p' =>
      match s with
      | EmptyString => None
      | String b s' => if Ascii.eqb a b then strip_prefix p' s' else None
      end
  end.

(** The text consumed between the suffix [s] and its suffix [s']. *)
Definition consumed (s s' : string) : string :=
  String.substring 0 (String.length s - String.length s') s.

Section Backtracking.
Context {X : Type}.

(** Greedy star: take a character when possible, give it back when the
    continuation fails. *)
Fixpoint star_greedy (p : ascii -> bool) (s : string)
         (k : string -> option X) : option X :=
  match s with
  | EmptyString => k s
  | String c s' =>
      if p c then orelse (star_greedy p s' k) (k s) else k s
  end.

Definition plus_greedy (p : ascii -> bool) (s : string)
           (k : string -> option X) : option X :=
  match s with
  | EmptyString => None
  | String c s' => if p c then star_greedy p s' k else None
  end.

(** Lazy star: try the continuation first, take one more character
    only when it fails. *)
Fixpoint star_lazy (p : ascii -> bool) (s : string)
         (k : string -> option X) : option X :=
  match k s with
  | Some x => Some x
  | None =>
      match s with
      | EmptyString => None
      | String c s' => if p c then star_lazy p s' k else None
      end
  end.

Definition plus_lazy (p : ascii -> bool) (s : string)
           (k : string -> option X) : option X :=
  match s with
  | EmptyString => None
  | String c s' => if p c then star_lazy p s' k else None
  end.

Definition opt_greedy (p : ascii -> bool) (s : string)
           (k : string -> option X) : option X :=
  match s with
  | EmptyString => k s
  | String c s' => if p c then orelse (k s') (k s) else k s
  end.

(** [$] without MULTILINE: at the end, or before a final newline. *)
Definition at_end (s : string) : bool :=
  match s with
  | EmptyString => true
  | String c EmptyString => Ascii.eqb c "010"%char
  | _ => false
  end.

(** The backtracking matcher, in continuation-passing style.  [cap]
    is the current content of group 1. *)
Fixpoint rmatch (r : regex) (s : string) (cap : option string)
         (k : string -> option string -> option X) : option X :=
  match r with
  | Lit l =>
      match strip_prefix l s with
      | Some s' => k s' cap
      | None => None
      end
  | OptG p => opt_greedy p s (fun s' => k s' cap)
  | StarG p => star_greedy p s (fun s' => k s' cap)
  | PlusG p => plus_greedy p s (fun s' => k s' cap)
  | PlusL p => plus_lazy p s (fun s' => k s' cap)
  | Group r1 =>
      rmatch r1 s cap (fun s' _ => k s' (Some (consumed s s')))
  | Seq r1 r2 =>
      rmatch r1 s cap (fun s' cap' => rmatch r2 s' cap' k)
  | Alt r1 r2 => orelse (rmatch r1 s cap k) (rmatch r2 s cap k)
  | Eol => if at_end s then k s cap else None
  end.
End Backtracking.

(** The match object, reduced to what the caller reads: [group(1)]. *)
Definition match_at (r : regex) (s : string) : option string :=
  rmatch r s None
         (fun _ cap => Some match cap with
                            | Some g => g
                            | None => EmptyString
                            end).

(** [re.search(r, s)]: the match at the leftmost position that has one. *)
Fixpoint search (r : regex) (s : string) : option string :=
  match match_at r s with
  | Some g => Some g
  | None =>
      match s with
      | EmptyString => None
      | String _ s' => search r s'
      end
  end.

End Re.

(* ================================================================== *)
(** * Data model                                                       *)
(* ================================================================== *)

Inductive ActionType : Type :=
| NAVIGATE | CLICK | FILL | WAIT | SCROLL | SCREENSHOT | EXTRACT_TEXT | HOVER.

Definition ActionType_eqb (a b : ActionType) : bool :=
  match a, b with
  | NAVIGATE, NAVIGATE | CLICK, CLICK | FILL, FILL | WAIT, WAIT
  | SCROLL, SCROLL | SCREENSHOT, SCREENSHOT
  | EXTRACT_TEXT, EXTRACT_TEXT | HOVER, HOVER => true
  | _, _ => false
  end.

Record AutomationConfig : Type := mkConfig {
  headless : bool;
  cfg_timeout : Z;
  viewport_width : Z;
  viewport_height : Z;
  slow_mo : Z;
  user_agent : string;
  enable_logging : bool;
  max_retries : Z;
  retry_delay : Z
}.

Definition default_config : AutomationConfig :=
  {| headless := false; cfg_timeout := 30000;
     viewport_width := 1920; viewport_height := 1080; slow_mo := 300;
     user_agent := "Mozilla/5.0 (Windows NT 10.0; Win64; x64) AppleWebKit/537.36 (KHTML, like Gecko) Chrome/120.0.0.0 Safari/537.36";
     enable_logging := true; max_retries := 3; retry_delay := 1 |}.

(** A step whose fields hold values of the types the dataclass
    annotates: [description] a [str], [target], [value] and [selector] a
    [str] or [None], [timeout] and [wait_after] an [int], [optional] a
    [bool].  Every step of the pattern plan is of this kind.  Python does
    not check the annotations, and [_create_llm_plan] copies the values of
    the parsed JSON into the fields as they are, so a step of a
    language-model plan can hold other values ([None] for [wait_after], a
    number for [target]); such steps are outside this record, see
    [Further.RawStep] and [Further.typed_step]. *)
Record AutomationStep : Type := mkStep {
  action : ActionType;
  description : string;
  target : option string;
  value : option string;
  selector : option string;
  timeout : Z;
  wait_after : Z;
  optional : bool
}.

(** [AutomationStep(action, description)] with the dataclass defaults,
    and the keyword arguments the planner passes. *)
Definition Step (a : ActionType) (d : string) : AutomationStep :=
  {| action := a; description := d; target := None; value := None;
     selector := None; timeout := 15000; wait_after := 1000;
     optional := false |}.

Definition with_target (t : string) (s : AutomationStep) : AutomationStep :=
  {| action := action s; description := description s; target := Some t;
     value := value s; selector := selector s; timeout := timeout s;
     wait_after := wait_after s; optional := optional s |}.

Definition with_value (v : string) (s : AutomationStep) : AutomationStep :=
  {| action := action s; description := description s; target := target s;
     value := Some v; selector := selector s; timeout := timeout s;
     wait_after := wait_after s; optional := optional s |}.

Definition with_wait_after (n : Z) (s : AutomationStep) : AutomationStep :=
  {| action := action s; description := description s; target := target s;
     value := value s; selector := selector s; timeout := timeout s;
     wait_after := n; optional := optional s |}.

Definition with_optional (b : bool) (s : AutomationStep) : AutomationStep :=
  {| action := action s; description := description s; target := target s;
     value := value s; selector := selector s; timeout := timeout s;
     wait_after := wait_after s; optional := b |}.

(** Browser-side objects (playwright instance, browser, context, page) are
    referred to by identity. *)
Definition handle : Type := nat.

(** The fields of a [CompleteAutomationTool].  [llm] records whether the
    constructor obtained a language-model client ([self.llm] is not
    [None]). *)
Record Tool : Type := mkTool {
  config : AutomationConfig;
  browser : option handle;
  page : option handle;
  context : option handle;
  playwright_instance : option handle;
  current_url : string;
  llm : bool
}.

(** The tool as [__init__] leaves it. *)
Definition new_tool (cfg : AutomationConfig) (has_llm : bool) : Tool :=
  {| config := cfg; browser := None; page := None; context := None;
     playwright_instance := None; current_url := ""; llm := has_llm |}.

(* ================================================================== *)
(** * Planner: the pattern-based fallback                              *)
(* ================================================================== *)

Module Planner.
Import PyStr Re.

Definition dquote : ascii := "034"%char.
Definition squote : ascii := "039"%char.

(** The class of the two quote characters. *)
Definition is_quote (c : ascii) : bool :=
  Ascii.eqb c dquote || Ascii.eqb c squote.

(** The complement of that class. *)
Definition not_quote (c : ascii) : bool := negb (is_quote c).

(** (?:,|and|then|\.|play|click|$) *)
Definition stop_alt : regex :=
  Alt (Lit ",") (Alt (Lit "and") (Alt (Lit "then") (Alt (Lit ".")
    (Alt (Lit "play") (Alt (Lit "click") Eol))))).

(** The keyword, then \s+, an optional quote, group 1 (one or more
    non-quote characters, lazily), an optional quote, and the stop
    group after \s*. *)
Definition search_pattern (kw : string) : regex :=
  Seq (Lit kw)
    (Seq (PlusG isspace)
      (Seq (OptG is_quote)
        (Seq (Group (PlusL not_quote))
          (Seq (OptG is_quote)
            (Seq (StarG isspace) stop_alt))))).

Definition patterns : list regex :=
  [ search_pattern "search for"; search_pattern "find";
    search_pattern "look for"; search_pattern "about" ].

Definition stop_words : list string :=
  ["and"; "then"; "play"; "click"; "first"; "video"].

Definition skip_words : list string :=
  ["go"; "to"; "navigate"; "open"; "visit"; "search"; "find"; "look";
   "for"; "and"; "then"; "play"; "click"; "first"; "video"].

(** The loop over [patterns]: group 1 of the first pattern that matches. *)
Fixpoint first_match (ps : list regex) (s : string) : option string :=
  match ps with
  | [] => None
  | p :: ps' =>
      match search p s with
      | Some g => Some g
      | None => first_match ps' s
      end
  end.

Definition is_stop_word (w : string) : bool := mem (lower w) stop_words.

Definition is_meaningful (w : string) : bool :=
  negb (mem w skip_words) && negb (endswith w ".com").

Definition _extract_search_query (self : Tool) (instruction : string)
  : string :=
  match first_match patterns (lower instruction) with
  | Some g =>
      let query := strip g in
      let words := filter (fun w => negb (is_stop_word w)) (split query) in
      join " " words
  | None =>
      let words := split (lower instruction) in
      let meaningful_words := filter is_meaningful words in
      match meaningful_words with
      | [] => "cats"
      | _ => join " " (firstn 5 meaningful_words)
      end
  end.

Definition submit_step : AutomationStep :=
  with_optional true (with_target "search_submit"
                        (Step CLICK "Submit search")).

Definition _create_pattern_plan (self : Tool) (instruction url : string)
  : list AutomationStep :=
  let instruction_lower := lower instruction in
  let search_query := _extract_search_query self instruction in
  if str_in "youtube" instruction_lower then
    ([ with_target "https://youtube.com" (Step NAVIGATE "Navigate to YouTube");
       with_wait_after 3000 (Step WAIT "Wait for YouTube to load");
       with_value search_query
         (with_target "search"
            (Step FILL ("Search for '" ++ search_query ++ "'")));
       with_wait_after 1500 (Step WAIT "Wait after typing");
       submit_step ]
     ++
     (if str_in "play" instruction_lower && str_in "first" instruction_lower
      then [ with_wait_after 3000 (Step WAIT "Wait for search results");
             with_optional true
               (with_target "first_video" (Step CLICK "Click first video")) ]
      else []))%list
  else if str_in "google" instruction_lower then
    [ with_target "https://google.com" (Step NAVIGATE "Navigate to Google");
      with_wait_after 2000 (Step WAIT "Wait for Google to load");
      with_value search_query
        (with_target "search"
           (Step FILL ("Search for '" ++ search_query ++ "'")));
      with_wait_after 1000 (Step WAIT "Wait after typing") ]
  else if str_in "amazon" instruction_lower then
    [ with_target "https://amazon.com" (Step NAVIGATE "Navigate to Amazon");
      with_wait_after 2000 (Step WAIT "Wait for Amazon to load");
      with_value search_query
        (with_target "search"
           (Step FILL ("Search for '" ++ search_query ++ "'")));
      with_wait_after 1000 (Step WAIT "Wait after typing");
      submit_step ]
  else if truthy url then
    [ with_target url (Step NAVIGATE ("Navigate to " ++ url));
      with_wait_after 3000 (Step WAIT "Wait for page to load") ]
  else
    [ with_target "https://google.com" (Step NAVIGATE "Navigate to Google");
      with_wait_after 2000 (Step WAIT "Wait for page load");
      with_value search_query
        (with_target "search"
           (Step FILL ("Search for '" ++ search_query ++ "'"))) ].

(** The site keywords in the order the planner tests them, with the URL
    each branch navigates to. *)
Inductive Site : Type := YouTube | Google | Amazon.

Definition keyword (s : Site) : string :=
  match s with
  | YouTube => "youtube" | Google => "google" | Amazon => "amazon"
  end.

Definition canonical_url (s : Site) : string :=
  match s with
  | YouTube => "https://youtube.com"
  | Google => "https://google.com"
  | Amazon => "https://amazon.com"
  end.

(** The first keyword, in priority order, that the lowercase instruction
    contains. *)
Definition detect_site (instruction : string) : option Site :=
  let l := lower instruction in
  if str_in (keyword YouTube) l then Some YouTube
  else if str_in (keyword Google) l then Some Google
  else if str_in (keyword Amazon) l then Some Amazon
  else None.

Definition has_action (a : ActionType) (steps : list AutomationStep) : bool :=
  existsb (fun s => ActionType_eqb (action s) a) steps.

End Planner.

(* ================================================================== *)
(** * Effects: exceptions and the mutable world                        *)
(* ================================================================== *)

(** The result of a call: a value, or a raised [Exception].  What an
    [except Exception] clause does not catch (task cancellation,
    interpreter exit) is outside the model. *)
Inductive outcome (A : Type) : Type :=
| Ok (a : A)
| Raise.
Arguments Ok {A} a.
Arguments Raise {A}.

Record Response : Type := mkResponse { status : Z }.

(** The external collaborators, over a state [P] of the outside world
    (browser, pages, clock, language model).  Every call may raise and
    may change that state.  Calls that create an object only report
    success here; the object's identity is given by the caller. *)
Class Runtime (P : Type) : Type := {
  (* browser lifecycle *)
  pw_start : P -> outcome unit * P;
  chromium_launch : handle -> AutomationConfig -> P -> outcome unit * P;
  new_context : handle -> AutomationConfig -> P -> outcome unit * P;
  new_page : handle -> P -> outcome unit * P;
  set_default_timeout : handle -> Z -> P -> outcome unit * P;
  page_close : handle -> P -> outcome unit * P;
  context_close : handle -> P -> outcome unit * P;
  browser_close : handle -> P -> outcome unit * P;
  pw_stop : handle -> P -> outcome unit * P;
  (* page primitives, the page last; the leading string is a URL, a
     key, a selector or a text, the integers are timeouts or delays in
     ms *)
  goto : string -> Z -> handle -> P -> outcome (option Response) * P;
  wait_for_load_state : string -> Z -> handle -> P -> outcome unit * P;
  keyboard_press : string -> handle -> P -> outcome unit * P;
  wait_for_selector : string -> Z -> handle -> P -> outcome unit * P;
  scroll_into_view_if_needed : string -> handle -> P -> outcome unit * P;
  click : string -> Z -> handle -> P -> outcome unit * P;
  get_by_text_click : string -> Z -> handle -> P -> outcome unit * P;
  focus : string -> handle -> P -> outcome unit * P;
  clear : string -> handle -> P -> outcome unit * P;
  type_text : string -> string -> Z -> handle -> P -> outcome unit * P;
  input_value : string -> handle -> P -> outcome string * P;
  mouse_wheel : Z -> Z -> handle -> P -> outcome unit * P;
  screenshot : string -> bool -> handle -> P -> outcome unit * P;
  (* asyncio.sleep, in milliseconds *)
  sleep_ms : Z -> P -> P;
  (* datetime.now().strftime of the screenshot name *)
  now_stamp : P -> string;
  (* int(str) *)
  py_int : string -> option Z;
  (* the language-model planner: the converted plan of a reply whose
     steps hold values of the annotated types *)
  llm_plan : string -> string -> P -> outcome (list AutomationStep) * P
}.

(** What happened to browser-side objects, most recent first. *)
Inductive event : Type :=
| Created (h : handle)
| Closed (h : handle).

Record World (P : Type) : Type := mkWorld {
  self : Tool;
  env : P;
  next_handle : handle;
  events : list event
}.
Arguments mkWorld {P}.
Arguments self {P}.
Arguments env {P}.
Arguments next_handle {P}.
Arguments events {P}.

Definition is_closed (h : handle) (e : event) : bool :=
  match e with Closed h' => Nat.eqb h h' | Created _ => false end.

(** How many times [h] was closed in [evs]. *)
Definition close_count (h : handle) (evs : list event) : nat :=
  List.length (filter (is_closed h) evs).

(** The objects a tool refers to, in the order cleanup visits them. *)
Definition owned (t : Tool) : list handle :=
  (match page t with Some h => [h] | None => [] end)
  ++ (match context t with Some h => [h] | None => [] end)
  ++ (match browser t with Some h => [h] | None => [] end)
  ++ (match playwright_instance t with Some h => [h] | None => [] end).

Definition set_page (o : option handle) (t : Tool) : Tool :=
  {| config := config t; browser := browser t; page := o;
     context := context t; playwright_instance := playwright_instance t;
     current_url := current_url t; llm := llm t |}.

Definition set_context (o : option handle) (t : Tool) : Tool :=
  {| config := config t; browser := browser t; page := page t;
     context := o; playwright_instance := playwright_instance t;
     current_url := current_url t; llm := llm t |}.

Definition set_browser (o : option handle) (t : Tool) : Tool :=
  {| config := config t; browser := o; page := page t;
     context := context t; playwright_instance := playwright_instance t;
     current_url := current_url t; llm := llm t |}.

Definition set_playwright_instance (o : option handle) (t : Tool) : Tool :=
  {| config := config t; browser := browser t; page := page t;
     context := context t; playwright_instance := o;
     current_url := current_url t; llm := llm t |}.

Definition set_current_url (u : string) (t : Tool) : Tool :=
  {| config := config t; browser := browser t; page := page t;
     context := context t; playwright_instance := playwright_instance t;
     current_url := u; llm := llm t |}.

Module Eff.
Section Monad.
Context {P : Type}.

(** Computations that read and write the world and may raise. *)
Definition M (A : Type) : Type := World P -> outcome A * World P.

Definition ret {A} (a : A) : M A := fun w => (Ok a, w).

Definition raise {A} : M A := fun w => (Raise, w).

Definition bind {A B} (m : M A) (f : A -> M B) : M B :=
  fun w =>
    match m w with
    | (Ok a, w') => f a w'
    | (Raise, w') => (Raise, w')
    end.

(** [try: m  except Exception: h] *)
Definition catch {A} (m : M A) (h : M A) : M A :=
  fun w =>
    match m w with
    | (Ok a, w') => (Ok a, w')
    | (Raise, w') => h w'
    end.

(** [try: m  finally: c] *)
Definition finally {A} (m : M A) (c : M unit) : M A :=
  fun w =>
    match m w with
    | (r, w') =>
        match c w' with
        | (Ok _, w'') => (r, w'')
        | (Raise, w'') => (Raise, w'')
        end
    end.

Definition get_self : M Tool := fun w => (Ok (self w), w).

Definition modify_self (f : Tool -> Tool) : M unit :=
  fun w => (Ok tt, mkWorld (f (self w)) (env w) (next_handle w) (events w)).

(** A call into the outside world. *)
Definition call {A} (op : P -> outcome A * P) : M A :=
  fun w =>
    match op (env w) with
    | (r, e) => (r, mkWorld (self w) e (next_handle w) (events w))
    end.

(** A call on [self.page]; on [None] the attribute access raises. *)
Definition on_page {A} (op : handle -> P -> outcome A * P) : M A :=
  fun w =>
    match page (self w) with
    | Some h => call (op h) w
    | None => (Raise, w)
    end.

(** A call that returns a new object. *)
Definition create (op : P -> outcome unit * P) : M handle :=
  fun w =>
    match op (env w) with
    | (Ok _, e) =>
        (Ok (next_handle w),
         mkWorld (self w) e (S (next_handle w))
                 (Created (next_handle w) :: events w))
    | (Raise, e) =>
        (Raise, mkWorld (self w) e (next_handle w) (events w))
    end.

(** A call that closes the object [h]; the object counts as closed
    when the call returns. *)
Definition close (op : handle -> P -> outcome unit * P) (h : handle)
  : M unit :=
  fun w =>
    match op h (env w) with
    | (Ok _, e) =>
        (Ok tt, mkWorld (self w) e (next_handle w)
                        (Closed h :: events w))
    | (Raise, e) =>
        (Raise, mkWorld (self w) e (next_handle w) (events w))
    end.
End Monad.
End Eff.

Import Eff.

Declare Scope eff_scope.
Delimit Scope eff_scope with eff.
Notation "x <- m ;; k" := (bind m (fun x => k))
  (at level 61, m at next level, right associativity) : eff_scope.
Notation "m ;;; k" := (bind m (fun _ => k))
  (at level 61, right associativity) : eff_scope.
Open Scope eff_scope.

(* ================================================================== *)
(** * Step executor                                                    *)
(* ================================================================== *)

Module Executor.
Import PyStr.

Section WithRuntime.
Context {P : Type} {R : Runtime P}.

(** [await asyncio.sleep(ms / 1000)], for an [ms] whose quotient is a
    float, as it is for the constants of the source and for every
    [wait_after] up to [Further.max_pause]; for a larger integer the
    division raises [OverflowError]. *)
Definition sleep (ms : Z) : M (P := P) unit :=
  fun w => (Ok tt, mkWorld (self w) (sleep_ms ms (env w))
                           (next_handle w) (events w)).

(** [try: m; return True  except: pass] as a flag: did [m] return? *)
Definition attempt (m : M (P := P) unit) : M bool :=
  catch (m ;;; ret true) (ret false).

Definition _get_smart_selectors (self : Tool) (target : option string)
           (action : string) : list string :=
  if negb (otruthy target) then []
  else
    let target_lower :=
      lower (match target with Some t => t | None => "" end) in
    if action =? "fill" then
      if str_in "search" target_lower then
        [ "input[name='search_query']";
          "input[name='q']"; "textarea[name='q']"; "#APjFqb";
          "input#twotabsearchtextbox"; "input[name='field-keywords']";
          "input[type='search']"; "input[placeholder*='Search']";
          "#search"; ".search-input" ]
      else [ "input[type='text']"; "input"; "textarea" ]
    else if action =? "click" then
      if str_in "search" target_lower || str_in "submit" target_lower then
        [ "button#search-icon-legacy"; "#search-icon-legacy";
          "input[name='btnK']"; "input[value='Google Search']";
          "input#nav-search-submit-button";
          "button[type='submit']"; "input[type='submit']";
          "button[aria-label*='Search']" ]
      else if str_in "video" target_lower || str_in "first" target_lower
      then
        [ "a#video-title"; "#contents a#video-title:first-of-type";
          ".ytd-video-renderer a:first-of-type";
          "a[href*='/watch']:first-of-type";
          "a:first-of-type"; "button:first-of-type" ]
      else [ "button"; "a"; "input[type='button']" ]
    else [].

Definition _navigate (step : AutomationStep) : M (P := P) bool :=
  catch
    (match target step with
     | None => raise
     | Some t =>
         let url := if negb (startswith t "http")
                    then ("https://" ++ t)%string else t in
         response <- on_page (goto url 30000) ;;
         match response with
         | Some r =>
             if (status r <? 400)%Z then
               modify_self (set_current_url url) ;;;
               catch (on_page (wait_for_load_state "networkidle" 10000))
                     (sleep 2000) ;;;
               ret true
             else ret false
         | None => ret false
         end
     end)
    (ret false).

(** Does the target hint at a search submission? *)
Definition enter_hint (step : AutomationStep) : bool :=
  match target step with
  | Some t =>
      truthy t &&
      existsb (fun word => str_in word (lower t))
              ["search"; "submit"; "enter"]
  | None => false
  end.

Definition enter_attempt : M (P := P) unit :=
  on_page (keyboard_press "Enter") ;;; sleep 1000.

(** The body of the candidate loop of [_smart_click]. *)
Definition click_attempt (step : AutomationStep) (selector : string)
  : M (P := P) unit :=
  on_page (wait_for_selector selector (timeout step)) ;;;
  on_page (scroll_into_view_if_needed selector) ;;;
  sleep 300 ;;;
  on_page (click selector 5000).

(** The candidate loop: [true] when some iteration returned [True]. *)
Fixpoint click_loop (step : AutomationStep) (selectors : list string)
  : M (P := P) bool :=
  match selectors with
  | [] => ret false
  | selector :: rest =>
      done <- attempt (click_attempt step selector) ;;
      if done then ret true else click_loop step rest
  end.

Definition text_attempt (t : string) : M (P := P) unit :=
  on_page (get_by_text_click t 3000).

Definition _smart_click (step : AutomationStep) : M (P := P) bool :=
  catch
    (entered <- (if enter_hint step then attempt enter_attempt
                 else ret false) ;;
     if entered then ret true else
     self <- get_self ;;
     let selectors := _get_smart_selectors self (target step) "click" in
     clicked <- click_loop step selectors ;;
     if clicked then ret true else
     by_text <- match target step with
                | Some t => if truthy t then attempt (text_attempt t)
                            else ret false
                | None => ret false
                end ;;
     if by_text then ret true else ret (optional step))
    (ret false).

(** Wait, focus, clear and type: the candidate loop of [_smart_fill]
    up to the read-back. *)
Definition type_phase (step : AutomationStep) (v selector : string)
  : M (P := P) unit :=
  on_page (wait_for_selector selector (timeout step)) ;;;
  on_page (focus selector) ;;;
  on_page (clear selector) ;;;
  sleep 200 ;;;
  on_page (type_text selector v 50) ;;;
  sleep 300.

(** [current_value and step.value.lower() in current_value.lower()] *)
Definition verified (v current_value : string) : bool :=
  truthy current_value && str_in (lower v) (lower current_value).

(** One iteration of the loop: [true] when it returned [True]. *)
Definition fill_attempt (step : AutomationStep) (v selector : string)
  : M (P := P) bool :=
  type_phase step v selector ;;;
  current_value <- on_page (input_value selector) ;;
  ret (verified v current_value).

Fixpoint fill_loop (step : AutomationStep) (v : string)
         (selectors : list string) : M (P := P) bool :=
  match selectors with
  | [] => ret false
  | selector :: rest =>
      done <- catch (fill_attempt step v selector) (ret false) ;;
      if done then ret true else fill_loop step v rest
  end.

Definition _smart_fill (step : AutomationStep) : M (P := P) bool :=
  catch
    (if negb (otruthy (value step)) then ret false
     else
       let v := match value step with Some v => v | None => "" end in
       self <- get_self ;;
       let selectors := _get_smart_selectors self (target step) "fill" in
       filled <- fill_loop step v selectors ;;
       if filled then ret true else ret (optional step))
    (ret false).

Definition _wait (step : AutomationStep) : M (P := P) bool :=
  catch
    (let wait_time := if (wait_after step >? 0)%Z
                      then wait_after step else 1000%Z in
     sleep wait_time ;;; ret true)
    (ret false).

Definition _scroll (step : AutomationStep) : M (P := P) bool :=
  catch
    ((match value step with
      | Some v =>
          if truthy v then
            match py_int v with
            | Some n => on_page (mouse_wheel 0 n)
            | None => raise
            end
          else on_page (keyboard_press "PageDown")
      | None => on_page (keyboard_press "PageDown")
      end) ;;;
     ret true)
    (ret false).

Definition _screenshot (step : AutomationStep) : M (P := P) bool :=
  catch
    (timestamp <- (fun w => (Ok (now_stamp (env w)), w)) ;;
     let filename := ("screenshot_" ++ timestamp ++ ".png")%string in
     on_page (screenshot filename true) ;;;
     ret true)
    (ret false).

(** The pause after a successful action. *)
Definition wait_after_action (step : AutomationStep) (success : bool)
  : M (P := P) bool :=
  (if success && (wait_after step >? 0)%Z
   then sleep (wait_after step) else ret tt) ;;;
  ret success.

Definition _execute_step (step : AutomationStep) : M (P := P) bool :=
  catch
    (match action step with
     | NAVIGATE => success <- _navigate step ;;
                   wait_after_action step success
     | CLICK => success <- _smart_click step ;;
                wait_after_action step success
     | FILL => success <- _smart_fill step ;;
               wait_after_action step success
     | WAIT => success <- _wait step ;;
               wait_after_action step success
     | SCROLL => success <- _scroll step ;;
                 wait_after_action step success
     | SCREENSHOT => success <- _screenshot step ;;
                     wait_after_action step success
     | EXTRACT_TEXT | HOVER => ret false
     end)
    (ret false).

End WithRuntime.
End Executor.

(* ================================================================== *)
(** * Automation session                                               *)
(* ================================================================== *)

Module Session.
Import Planner Executor.

(** The lines of the returned report. *)
Inductive entry : Type :=
| Executing (n : nat) (instruction : string)
| StepStarted (i : nat) (description : string)
| StepCompleted (i : nat)
| StepSkipped (i : nat)
| StepFailed (i : nat)
| StepError (i : nat)
| Completed.

(** What [execute_automation] returns: the joined report, or the
    critical-error message. *)
Inductive report : Type :=
| Report (results : list entry)
| CriticalError.

Section WithRuntime.
Context {P : Type} {R : Runtime P}.

Definition the_field (f : Tool -> option handle) : M (P := P) handle :=
  fun w => match f (self w) with
           | Some h => (Ok h, w)
           | None => (Raise, w)
           end.

(** The [except] clause of [_init_browser] logs and re-raises, so the
    method behaves as its [try] body. *)
Definition _init_browser : M (P := P) unit :=
  pw <- create pw_start ;;
  modify_self (set_playwright_instance (Some pw)) ;;;
  self <- get_self ;;
  pw <- the_field playwright_instance ;;
  b <- create (chromium_launch pw (config self)) ;;
  modify_self (set_browser (Some b)) ;;;
  b <- the_field browser ;;
  c <- create (new_context b (config self)) ;;
  modify_self (set_context (Some c)) ;;;
  c <- the_field context ;;
  p <- create (new_page c) ;;
  modify_self (set_page (Some p)) ;;;
  on_page (fun h => set_default_timeout h (cfg_timeout (config self))).

(** [if self.x: await self.x.close()] *)
Definition close_field (f : Tool -> option handle)
           (op : handle -> P -> outcome unit * P) : M (P := P) unit :=
  fun w => match f (self w) with
           | Some h => close op h w
           | None => (Ok tt, w)
           end.

Definition _cleanup_browser : M (P := P) unit :=
  catch
    (close_field page page_close ;;;
     close_field context context_close ;;;
     close_field browser browser_close ;;;
     close_field playwright_instance pw_stop)
    (ret tt).

(** The method builds the prompt, invokes the language model, strips a
    code fence from the reply, parses it with [json.loads] and converts
    every item to an [AutomationStep] (see [Further.convert_plan] for the
    conversion loop); its [except] clause logs and re-raises.  The
    embedding takes all of this as one call that raises or answers with
    the converted plan, and covers the replies whose converted steps hold
    values of the annotated types: the source stores the JSON values
    without checking them, and a plan with other values cannot be
    expressed here. *)
Definition _create_llm_plan (instruction url : string)
  : M (P := P) (list AutomationStep) :=
  call (llm_plan instruction url).

Definition _create_automation_plan (instruction url : string)
  : M (P := P) (list AutomationStep) :=
  self <- get_self ;;
  planned <- (if llm self
              then catch (plan <- _create_llm_plan instruction url ;;
                          ret (Some plan))
                         (ret None)
              else ret None) ;;
  match planned with
  | Some plan => ret plan
  | None => ret (_create_pattern_plan self instruction url)
  end.

(** The loop over [enumerate(automation_plan, 1)], from index [i]. *)
Fixpoint run_steps (plan : list AutomationStep) (i : nat)
         (results : list entry) : M (P := P) (list entry) :=
  match plan with
  | [] => ret results
  | step :: rest =>
      let started := results ++ [StepStarted i (description step)] in
      results' <-
        catch
          (success <- _execute_step step ;;
           ret (started ++
                [if success then StepCompleted i
                 else if optional step then StepSkipped i
                 else StepFailed i]))
          (ret (started ++ [StepError i])) ;;
      run_steps rest (S i) results'
  end.

Definition execute_automation (instruction url : string)
  : M (P := P) report :=
  finally
    (catch
       (_init_browser ;;;
        automation_plan <- _create_automation_plan instruction url ;;
        results <- run_steps automation_plan 1
                     [Executing (List.length automation_plan) instruction] ;;
        ret (Report (results ++ [Completed])))
       (ret CriticalError))
    _cleanup_browser.

End WithRuntime.
End Session.

(* ================================================================== *)
(** * A stub browser                                                   *)
(* ================================================================== *)

Module Stub.

(** How the stub behaves, fixed for a whole run. *)
Record Behaviour : Type := mkBehaviour {
  has_elements : bool;        (* can anything be located and acted on? *)
  rejects_input : bool;       (* the field always reads back empty *)
  page_close_raises : bool;   (* closing the page raises *)
  launch_raises : bool;       (* launching the browser raises *)
  goto_status : option Z      (* the status navigation answers with *)
}.

(** A one-field page and a clock. *)
Record Sim : Type := mkSim {
  field : string;             (* what was typed into the field *)
  clock : Z                   (* milliseconds slept so far *)
}.

Definition ok (p : Sim) : outcome unit * Sim := (Ok tt, p).

Definition when (b : bool) (p : Sim) : outcome unit * Sim :=
  if b then (Ok tt, p) else (Raise, p).

Definition digit_of (c : ascii) : option Z :=
  let n := nat_of_ascii c in
  if (48 <=? n)%nat && (n <=? 57)%nat then Some (Z.of_nat (n - 48))
  else None.

(** The whitespace [int] skips around a number: the ASCII whitespace of
    C and the Latin-1 spaces, but not the separators 28..31 that
    [str.strip] removes. *)
Definition int_space (c : ascii) : bool :=
  let n := nat_of_ascii c in
  (((9 <=? n) && (n <=? 13)) || (n =? 32) || (n =? 133) || (n =? 160))%nat.

Fixpoint skip_spaces (s : string) : string :=
  match s with
  | EmptyString => EmptyString
  | String c s' => if int_space c then skip_spaces s' else s
  end.

(** The decimal digits of [s], single underscores allowed between two
    digits, whitespace allowed after the last digit; [acc] is the value
    read so far, [after_digit] tells whether the last character read was
    a digit. *)
Fixpoint digits (s : string) (acc : Z) (after_digit : bool) : option Z :=
  match s with
  | EmptyString => if after_digit then Some acc else None
  | String c s' =>
      match digit_of c with
      | Some d => digits s' (10 * acc + d) true
      | None =>
          if Ascii.eqb c "_" && after_digit then digits s' acc false
          else if int_space c && after_digit then
            match skip_spaces s' with
            | EmptyString => Some acc
            | _ => None
            end
          else None
      end
  end.

(** [int(v)] of a string: surrounding whitespace, an optional sign,
    decimal digits; [None] where [int] raises [ValueError]. *)
Definition parse_int (v : string) : option Z :=
  match skip_spaces v with
  | String "-" s => option_map Z.opp (digits s 0 false)
  | String "+" s => digits s 0 false
  | s => digits s 0 false
  end.

Definition sim_runtime (b : Behaviour) : Runtime Sim := {|
  pw_start := ok;
  chromium_launch := fun _ _ => when (negb (launch_raises b));
  new_context := fun _ _ => ok;
  new_page := fun _ => ok;
  set_default_timeout := fun _ _ => ok;
  page_close := fun _ => when (negb (page_close_raises b));
  context_close := fun _ => ok;
  browser_close := fun _ => ok;
  pw_stop := fun _ => ok;
  goto := fun _ _ _ p =>
    (Ok match goto_status b with
        | Some z => Some (mkResponse z)
        | None => None
        end, p);
  wait_for_load_state := fun _ _ _ => ok;
  keyboard_press := fun _ _ => when (has_elements b);
  wait_for_selector := fun _ _ _ => when (has_elements b);
  scroll_into_view_if_needed := fun _ _ => when (has_elements b);
  click := fun _ _ _ => when (has_elements b);
  get_by_text_click := fun _ _ _ => when (has_elements b);
  focus := fun _ _ => when (has_elements b);
  clear := fun _ _ p => (Ok tt, mkSim "" (clock p));
  type_text := fun _ text _ _ p =>
    (Ok tt, mkSim (field p ++ text) (clock p));
  input_value := fun _ _ p =>
    (Ok (if rejects_input b then "" else field p), p);
  mouse_wheel := fun _ _ _ => ok;
  screenshot := fun _ _ _ => ok;
  sleep_ms := fun ms p => mkSim (field p) (clock p + ms);
  now_stamp := fun _ => "20240101_000000";
  py_int := parse_int;
  llm_plan := fun _ _ p => (Raise, p)
|}.

(** A page with nothing on it. *)
Definition empty_page : Behaviour :=
  mkBehaviour false false false false (Some 200%Z).

(** A page whose field accepts what is typed. *)
Definition accepting_page : Behaviour :=
  mkBehaviour true false false false (Some 200%Z).

(** A page whose field silently rejects input. *)
Definition rejecting_page : Behaviour :=
  mkBehaviour true true false false (Some 200%Z).



Definition fresh_tool : Tool := new_tool default_config false.

(** A tool with a live page 3, before any step. *)
Definition live_tool : Tool :=
  set_page (Some 3) (set_context (Some 2) (set_browser (Some 1)
    (set_playwright_instance (Some 0) fresh_tool))).

Definition fresh_world : World Sim := mkWorld fresh_tool (mkSim "" 0) 0 [].

Definition live_world : World Sim :=
  mkWorld live_tool (mkSim "" 0) 4
          [Created 3; Created 2; Created 1; Created 0].


Definition fill_search (v : string) : AutomationStep :=
  with_value v (with_target "search" (Step FILL "Search")).

Definition optional_click : AutomationStep :=
  with_optional true
    (with_target "first_video" (Step CLICK "Click first video")).

End Stub.

(* ================================================================== *)
(** * Vocabulary of the statements                                     *)
(* ================================================================== *)

Module Vocabulary.
Import Executor.

Section WithWorld.
Context {P : Type}.






End WithWorld.

(** None of the four close calls raises. *)
Definition closes_succeed {P : Type} (R : Runtime P) : Prop :=
  forall (h : handle) (p : P),
    fst (page_close h p) = Ok tt /\
    fst (context_close h p) = Ok tt /\
    fst (browser_close h p) = Ok tt /\
    fst (pw_stop h p) = Ok tt.


End Vocabulary.

(* ================================================================== *)
(** * Vocabulary of the further properties                             *)
(* ================================================================== *)

Module Further.
Import PyStr Planner Executor Session.

(** [s[1:]] *)
Definition tail (s : string) : string :=
  match s with
  | EmptyString => EmptyString
  | String _ t => t
  end.

(** The literal alternatives of the stop group of the patterns. *)
Definition stop_tokens : list string :=
  [","; "and"; "then"; "."; "play"; "click"].

(** Are all characters of [s] in the class [p]? *)
Fixpoint all_chars (p : ascii -> bool) (s : string) : bool :=
  match s with
  | EmptyString => true
  | String c s' => p c && all_chars p s'
  end.

(** A character that [str.lower] leaves alone. *)
Definition is_lower_char (c : ascii) : bool := Ascii.eqb (lower_char c) c.

Definition option_eqb (a b : option string) : bool :=
  match a, b with
  | Some x, Some y => String.eqb x y
  | None, None => true
  | _, _ => false
  end.

(** A value as [json.loads] builds it.  A number with a fraction or an
    exponent is kept as its literal; the items of a dict are in insertion
    order, with distinct keys. *)
#[local] Unset Elimination Schemes.
Inductive pyval : Type :=
| PNone
| PBool (b : bool)
| PInt (n : Z)
| PFloat (literal : string)
| PStr (s : string)
| PList (items : list pyval)
| PDict (items : list (string * pyval)).
#[local] Set Elimination Schemes.

(** An [AutomationStep] object as it exists at run time: the dataclass
    does not check its annotations, so every field but [action], which
    the conversion builds with [ActionType(...)], can hold any value. *)
Record RawStep : Type := mkRawStep {
  raw_action : ActionType;
  raw_description : pyval;
  raw_target : pyval;
  raw_value : pyval;
  raw_selector : pyval;
  raw_timeout : pyval;
  raw_wait_after : pyval;
  raw_optional : pyval
}.

Definition as_str (v : pyval) : option string :=
  match v with PStr s => Some s | _ => None end.

Definition as_optional_str (v : pyval) : option (option string) :=
  match v with
  | PNone => Some None
  | PStr s => Some (Some s)
  | _ => None
  end.

Definition as_int (v : pyval) : option Z :=
  match v with PInt n => Some n | _ => None end.

Definition as_bool (v : pyval) : option bool :=
  match v with PBool b => Some b | _ => None end.

(** The step of the data model that a run-time step is, when each of its
    fields holds a value of the annotated type; [None] otherwise. *)
Definition typed_step (raw : RawStep) : option AutomationStep :=
  match as_str (raw_description raw),
        as_optional_str (raw_target raw),
        as_optional_str (raw_value raw),
        as_optional_str (raw_selector raw),
        as_int (raw_timeout raw),
        as_int (raw_wait_after raw),
        as_bool (raw_optional raw) with
  | Some d, Some t, Some v, Some s, Some ms, Some pause, Some o =>
      Some {| action := raw_action raw; description := d; target := t;
              value := v; selector := s; timeout := ms;
              wait_after := pause; optional := o |}
  | _, _, _, _, _, _, _ => None
  end.

Definition of_optional_str (o : option string) : pyval :=
  match o with Some s => PStr s | None => PNone end.

(** The run-time object of a step of the data model. *)
Definition raw_of_step (s : AutomationStep) : RawStep :=
  {| raw_action := action s;
     raw_description := PStr (description s);
     raw_target := of_optional_str (target s);
     raw_value := of_optional_str (value s);
     raw_selector := of_optional_str (selector s);
     raw_timeout := PInt (timeout s);
     raw_wait_after := PInt (wait_after s);
     raw_optional := PBool (optional s) |}.

(** [ActionType(name)]: the member with that value, [None] where the
    enumeration raises [ValueError]. *)
Definition action_of_value (name : string) : option ActionType :=
  if name =? "navigate" then Some NAVIGATE
  else if name =? "click" then Some CLICK
  else if name =? "fill" then Some FILL
  else if name =? "wait" then Some WAIT
  else if name =? "scroll" then Some SCROLL
  else if name =? "screenshot" then Some SCREENSHOT
  else if name =? "extract_text" then Some EXTRACT_TEXT
  else if name =? "hover" then Some HOVER
  else None.

(** [d.get(key)] on the items of a dict, [None] for a missing key. *)
Fixpoint dict_get (key : string) (d : list (string * pyval))
  : option pyval :=
  match d with
  | [] => None
  | (k, v) :: d' => if k =? key then Some v else dict_get key d'
  end.

(** [d.get(key, default)] *)
Definition get_or (key : string) (default : pyval)
           (d : list (string * pyval)) : pyval :=
  match dict_get key d with Some v => v | None => default end.

(** The body of the conversion loop of [_create_llm_plan].  Subscripting
    anything but a dict with a string, a missing [action] or
    [description] key and a value that names no action raise; the other
    keys are read with [get] and stored as they are. *)
Definition convert_step (step_data : pyval) : outcome RawStep :=
  match step_data with
  | PDict d =>
      match dict_get "action" d with
      | Some (PStr name) =>
          match action_of_value name, dict_get "description" d with
          | Some a, Some desc =>
              Ok {| raw_action := a;
                    raw_description := desc;
                    raw_target := get_or "target" PNone d;
                    raw_value := get_or "value" PNone d;
                    raw_selector := get_or "selector" PNone d;
                    raw_timeout := get_or "timeout" (PInt 15000) d;
                    raw_wait_after := get_or "wait_after" (PInt 1000) d;
                    raw_optional := get_or "optional" (PBool false) d |}
          | _, _ => Raise
          end
      | _ => Raise
      end
  | _ => Raise
  end.

(** What [for step_data in plan_data] iterates over: the items of a
    list, the keys of a dict, the characters of a string; other values
    are not iterable. *)
Definition iterate (plan_data : pyval) : outcome (list pyval) :=
  match plan_data with
  | PList items => Ok items
  | PDict d => Ok (map (fun kv => PStr (fst kv)) d)
  | PStr s => Ok (map (fun c => PStr (String c "")) (list_ascii_of_string s))
  | _ => Raise
  end.

Fixpoint convert_items (items : list pyval) : outcome (list RawStep) :=
  match items with
  | [] => Ok []
  | step_data :: rest =>
      match convert_step step_data with
      | Ok step =>
          match convert_items rest with
          | Ok steps => Ok (step :: steps)
          | Raise => Raise
          end
      | Raise => Raise
      end
  end.

(** The conversion loop of [_create_llm_plan] on the parsed reply. *)
Definition convert_plan (plan_data : pyval) : outcome (list RawStep) :=
  match iterate plan_data with
  | Ok items => convert_items items
  | Raise => Raise
  end.

(** A pause, in milliseconds, up to which [ms / 1000] is a float. *)
Definition max_pause : Z := 2 ^ 1023.

(** Does the step carry what its action reads?  [q] is the phrase a Fill
    step is to type. *)
Definition step_ready (q : string) (s : AutomationStep) : bool :=
  match action s with
  | NAVIGATE => otruthy (target s)
  | WAIT => (wait_after s >? 0)%Z
  | FILL => option_eqb (target s) (Some "search")
            && option_eqb (value s) (Some q)
  | CLICK => otruthy (target s) && optional s
  | _ => false
  end.



Section WithWorld.
Context {P : Type}.

(** Nothing but the outside world differs between [w] and [w']. *)
Definition kept (w w' : World P) : Prop :=
  self w' = self w /\
  next_handle w' = next_handle w /\
  events w' = events w.

(** Nothing but the outside world and [current_url] differs. *)
Definition kept_but_url (w w' : World P) : Prop :=
  set_current_url "" (self w') = set_current_url "" (self w) /\
  next_handle w' = next_handle w /\
  events w' = events w.

(** [m] relates every world to the one it leaves. *)
Definition Keeps (rel : World P -> World P -> Prop) {A}
           (m : M (P := P) A) : Prop :=
  forall w, rel w (snd (m w)).

(** The world after [await asyncio.sleep(ms / 1000)]. *)
Definition slept {R : Runtime P} (ms : Z) (w : World P) : World P :=
  mkWorld (self w) (sleep_ms ms (env w)) (next_handle w) (events w).
End WithWorld.

(** How a Click step run from [w] can have acted, leaving [w']: by the
    Enter key, on a candidate selector, or on the visible text. *)
Definition click_acted {P : Type} {R : Runtime P} (step : AutomationStep)
           (w w' : World P) : Prop :=
  (enter_hint step = true /\ enter_attempt w = (Ok tt, w')) \/
  (exists selector w1,
      In selector (_get_smart_selectors (self w) (target step) "click") /\
      click_attempt step selector w1 = (Ok tt, w')) \/
  (exists t w1,
      target step = Some t /\ text_attempt t w1 = (Ok tt, w')).

(** The close calls [_cleanup_browser] has to make for the tool [t], in
    source order: each object a field refers to, with the call that
    closes it. *)
Definition close_calls {P : Type} {R : Runtime P} (t : Tool)
  : list (handle * (handle -> P -> outcome unit * P)) :=
  (match page t with Some h => [(h, page_close)] | None => [] end)
  ++ (match context t with Some h => [(h, context_close)] | None => [] end)
  ++ (match browser t with Some h => [(h, browser_close)] | None => [] end)
  ++ (match playwright_instance t with
      | Some h => [(h, pw_stop)]
      | None => []
      end).

(** Make the calls in order from the outside world [e] and stop at the
    first one that raises: the objects closed, in order, and the outside
    world left behind. *)
Fixpoint close_until_raise {P : Type}
         (calls : list (handle * (handle -> P -> outcome unit * P)))
         (e : P) : list handle * P :=
  match calls with
  | [] => ([], e)
  | (h, op) :: rest =>
      match op h e with
      | (Ok _, e') =>
          let (closed, e'') := close_until_raise rest e' in
          (h :: closed, e'')
      | (Raise, e') => ([], e')
      end
  end.

(** The runtime [R] with a playwright that fails to start. *)
Definition with_failing_start {P : Type} (R : Runtime P) : Runtime P := {|
  pw_start := fun p => (Raise, p);
  chromium_launch := chromium_launch;
  new_context := new_context;
  new_page := new_page;
  set_default_timeout := set_default_timeout;
  page_close := page_close;
  context_close := context_close;
  browser_close := browser_close;
  pw_stop := pw_stop;
  goto := goto;
  wait_for_load_state := wait_for_load_state;
  keyboard_press := keyboard_press;
  wait_for_selector := wait_for_selector;
  scroll_into_view_if_needed := scroll_into_view_if_needed;
  click := click;
  get_by_text_click := get_by_text_click;
  focus := focus;
  clear := clear;
  type_text := type_text;
  input_value := input_value;
  mouse_wheel := mouse_wheel;
  screenshot := screenshot;
  sleep_ms := sleep_ms;
  now_stamp := now_stamp;
  py_int := py_int;
  llm_plan := llm_plan
|}.

End Further.

(* ================================================================== *)
(** * Properties of the string builtins                                *)
(* ================================================================== *)

Module PyStrFacts.
Import PyStr.

Fixpoint nospace (s : string) : bool :=
  match s with
  | EmptyString => true
  | String c s' => negb (isspace c) && nospace s'
  end.

(** A non-empty run of non-whitespace characters. *)
Definition is_word (w : string) : bool := truthy w && nospace w.

Lemma is_word_cons c w :
  is_word (String c w) = true -> isspace c = false /\ nospace w = true.
Proof.
  unfold is_word; simpl. intros H.
  apply andb_prop in H. destruct H as [Hc Hw].
  split; [now apply negb_true_iff|assumption].
Qed.

Lemma split_all_words s : Forall (fun w => is_word w = true) (split s).
Proof.
  induction s as [|c s IH]; simpl; [constructor|].
  destruct (isspace c) eqn:Hc; [assumption|].
  assert (Hone : is_word (String c EmptyString) = true)
    by (unfold is_word; simpl; now rewrite Hc).
  destruct (starts_word s).
  - destruct (split s) as [|w ws]; [now constructor|].
    inversion IH as [|? ? Hw Hws]; subst. constructor; [|assumption].
    unfold is_word in *; simpl. rewrite Hc; simpl.
    now apply andb_prop in Hw.
  - now constructor.
Qed.

(** Splitting a word followed by a separator-led rest. *)
Lemma split_word_app w r :
  is_word w = true -> starts_word r = false ->
  split (w ++ r)%string = w :: split r.
Proof.
  induction w as [|c w IH]; [discriminate|].
  intros Hw Hr. apply is_word_cons in Hw. destruct Hw as [Hc Hns].
  simpl. rewrite Hc. destruct w as [|c' w'].
  - simpl. now rewrite Hr.
  - assert (Hw' : is_word (String c' w') = true) by exact Hns.
    rewrite (IH Hw' Hr).
    simpl in Hns. apply andb_prop in Hns. destruct Hns as [Hc' _].
    simpl. now rewrite Hc'.
Qed.

Lemma split_word w : is_word w = true -> split w = [w].
Proof.
  intros Hw. pose proof (split_word_app w EmptyString Hw eq_refl) as H.
  assert (E : (w ++ "")%string = w).
  { clear. induction w; simpl; [reflexivity|now f_equal]. }
  now rewrite E in H.
Qed.

(** [split] undoes [" ".join] on words. *)
Lemma split_join ws :
  Forall (fun w => is_word w = true) ws -> split (join " " ws) = ws.
Proof.
  induction 1 as [|w ws Hw Hws IH]; [reflexivity|].
  unfold join in *. simpl. destruct ws as [|w' ws'].
  - now apply split_word.
  - rewrite split_word_app; [|assumption|reflexivity].
    change (split (String " " (String.concat " " (w' :: ws'))))
      with (split (String.concat " " (w' :: ws'))).
    now rewrite IH.
Qed.

Lemma Forall_filter {A} (Q : A -> Prop) f l :
  Forall Q l -> Forall Q (filter f l).
Proof.
  induction 1; simpl; [constructor|].
  destruct (f x); [constructor|]; assumption.
Qed.

Lemma Forall_firstn {A} (Q : A -> Prop) n l :
  Forall Q l -> Forall Q (firstn n l).
Proof.
  intros H. revert n. induction H; intros [|n]; simpl; constructor; auto.
Qed.

Lemma Forall_filter_true {A} (f : A -> bool) l :
  Forall (fun x => f x = true) (filter f l).
Proof.
  induction l as [|x l IH]; simpl; [constructor|].
  destruct (f x) eqn:E; [constructor|]; assumption.
Qed.

End PyStrFacts.

(* ================================================================== *)
(** * The planner                                                      *)
(* ================================================================== *)

Module PlannerFacts.
Import PyStr PyStrFacts Planner.

Lemma stop_word_fixed w :
  In w stop_words -> is_stop_word w = true.
Proof.
  unfold stop_words. simpl.
  intros [H|[H|[H|[H|[H|[H|[]]]]]]]; subst; reflexivity.
Qed.

Lemma stop_word_skipped w :
  In w stop_words -> is_meaningful w = false.
Proof.
  unfold stop_words. simpl.
  intros [H|[H|[H|[H|[H|[H|[]]]]]]]; subst; reflexivity.
Qed.

(** The extractor returns the join of a list of words, each of which
    passed one of the two filters. *)
Lemma extract_shape self instruction :
  exists ws,
    split (_extract_search_query self instruction) = ws /\
    Forall (fun w => is_stop_word w = false \/ is_meaningful w = true
                     \/ w = "cats") ws.
Proof.
  unfold _extract_search_query.
  destruct (first_match patterns (lower instruction)) as [g|].
  - eexists. split.
    + apply split_join. apply Forall_filter. apply split_all_words.
    + eapply Forall_impl; [|apply Forall_filter_true].
      intros w Hw. left. now apply negb_true_iff.
  - destruct (filter is_meaningful (split (lower instruction)))
      as [|m ms] eqn:E.
    + exists ["cats"]. split; [reflexivity|]. constructor; auto.
    + eexists. split.
      * apply split_join. apply Forall_firstn. rewrite <- E.
        apply Forall_filter. apply split_all_words.
      * apply Forall_firstn. rewrite <- E.
        eapply Forall_impl; [|apply Forall_filter_true].
        intros w Hw. right. now left.
Qed.

(** C5.  When the lowercase instruction contains a site keyword, the
    pattern plan starts with a NAVIGATE step to the canonical URL of the
    first keyword in the order youtube, google, amazon. *)
Theorem pattern_plan_first_step_navigates_to_site :
  forall (self : Tool) (instruction url : string) (site : Site),
    detect_site instruction = Some site ->
    exists first rest,
      _create_pattern_plan self instruction url = first :: rest /\
      action first = NAVIGATE /\
      target first = Some (canonical_url site).
Proof.
  intros self instruction url site. unfold detect_site, _create_pattern_plan.
  simpl keyword.
  destruct (str_in "youtube" (lower instruction)).
  - intros [= <-]. do 2 eexists. simpl. repeat split.
  - destruct (str_in "google" (lower instruction)).
    + intros [= <-]. do 2 eexists. repeat split.
    + destruct (str_in "amazon" (lower instruction)); [|discriminate].
      intros [= <-]. do 2 eexists. repeat split.
Qed.

Lemma pattern_plan_first_step_witness :
  detect_site "Navigate to Amazon and find wireless keyboards" = Some Amazon /\
  exists first rest,
    _create_pattern_plan Stub.fresh_tool
      "Navigate to Amazon and find wireless keyboards" "" = first :: rest /\
    action first = NAVIGATE /\
    target first = Some (canonical_url Amazon).
Proof.
  split; [reflexivity|].
  apply (pattern_plan_first_step_navigates_to_site
           Stub.fresh_tool "Navigate to Amazon and find wireless keyboards"
           "" Amazon).
  reflexivity.
Defined.

(** C6, as stated, fails: with a start URL and no site keyword the plan
    is Navigate, Wait and has no Fill step. *)
Lemma pattern_plan_url_branch_has_no_fill :
  let plan := _create_pattern_plan Stub.fresh_tool
                "open my page" "https://example.com" in
  map action plan = [NAVIGATE; WAIT] /\ has_action FILL plan = false.
Proof. split; reflexivity. Qed.

(** C6, amended.  The pattern plan is never empty and always holds a
    Navigate and a Wait step; it holds a Fill step exactly when the
    instruction names a site or no start URL is given. *)
Theorem pattern_plan_never_empty :
  forall (self : Tool) (instruction url : string),
    let plan := _create_pattern_plan self instruction url in
    plan <> [] /\
    has_action NAVIGATE plan = true /\
    has_action WAIT plan = true /\
    has_action FILL plan =
      (match detect_site instruction with Some _ => true | None => false end
       || negb (truthy url)).
Proof.
  intros self instruction url. unfold detect_site, _create_pattern_plan.
  simpl keyword.
  destruct (str_in "youtube" (lower instruction)).
  { destruct (str_in "play" (lower instruction)
              && str_in "first" (lower instruction));
      repeat split; discriminate. }
  destruct (str_in "google" (lower instruction));
    [repeat split; discriminate|].
  destruct (str_in "amazon" (lower instruction));
    [repeat split; discriminate|].
  destruct (truthy url); repeat split; discriminate.
Qed.

(** C9.  On the instruction of the start-up banner the pattern plan takes
    the YouTube branch, but the extracted phrase is cut at the letters
    and inside thailand. *)
Theorem extract_thailand_example :
  let instruction :=
    "Go to YouTube and search for thailand itinerary 10 days" in
  _extract_search_query Stub.fresh_tool instruction = "thail" /\
  _extract_search_query Stub.fresh_tool instruction
    <> "thailand itinerary 10 days" /\
  exists rest,
    _create_pattern_plan Stub.fresh_tool instruction ""
    = with_target "https://youtube.com" (Step NAVIGATE "Navigate to YouTube")
      :: rest.
Proof.
  cbv zeta. split; [vm_compute; reflexivity|].
  split; [vm_compute; discriminate|].
  eexists. vm_compute. reflexivity.
Qed.

(** C10.  No word of the extracted phrase is one of and, then, play,
    click, first, video. *)
Theorem extract_search_query_has_no_stop_word :
  forall (self : Tool) (instruction : string),
    Forall (fun w => ~ In w stop_words)
           (split (_extract_search_query self instruction)).
Proof.
  intros self instruction.
  destruct (extract_shape self instruction) as (ws & -> & Hws).
  eapply Forall_impl; [|exact Hws].
  intros w [H|[H|H]] Hin.
  - apply stop_word_fixed in Hin. congruence.
  - apply stop_word_skipped in Hin. congruence.
  - subst w. simpl in Hin.
    destruct Hin as [H|[H|[H|[H|[H|[H|[]]]]]]]; discriminate.
Qed.

(** The extractor on the instructions of the interface's help text. *)
Example extract_find_headphones :
  _extract_search_query Stub.fresh_tool "find wireless headphones"
  = "wireless headphones".
Proof. vm_compute. reflexivity. Qed.

Example extract_quoted_phrase :
  _extract_search_query Stub.fresh_tool
    "Go to YouTube and search for 'cats'  then play first video" = "cats".
Proof. vm_compute. reflexivity. Qed.

Example extract_default_phrase :
  _extract_search_query Stub.fresh_tool "open example.com" = "cats".
Proof. vm_compute. reflexivity. Qed.

Example plan_without_site :
  map (fun s => (action s, target s, value s))
      (_create_pattern_plan Stub.fresh_tool "find wireless headphones" "")
  = [ (NAVIGATE, Some "https://google.com", None);
      (WAIT, None, None);
      (FILL, Some "search", Some "wireless headphones") ].
Proof. vm_compute. reflexivity. Qed.

End PlannerFacts.

(* ================================================================== *)
(** * The step executor                                                *)
(* ================================================================== *)

Module ExecutorFacts.
Import PyStr Executor Vocabulary.

Section WithRuntime.
Context {P : Type} {R : Runtime P}.

Lemma attempt_unfold (m : M (P := P) unit) w :
  attempt m w = match m w with
                | (Ok _, w') => (Ok true, w')
                | (Raise, w') => (Ok false, w')
                end.
Proof.
  unfold attempt, catch, bind, ret. now destruct (m w) as [[[]|] w'].
Qed.


Lemma click_loop_cons step selector rest w :
  click_loop step (selector :: rest) w =
  match click_attempt step selector w with
  | (Ok _, w') => (Ok true, w')
  | (Raise, w') => click_loop step rest w'
  end.
Proof.
  simpl. unfold bind at 1. rewrite attempt_unfold.
  now destruct (click_attempt step selector w) as [[[]|] w'].
Qed.

Lemma fill_loop_cons step v selector rest w :
  fill_loop step v (selector :: rest) w =
  match fill_attempt step v selector w with
  | (Ok true, w') => (Ok true, w')
  | (Ok false, w') | (Raise, w') => fill_loop step v rest w'
  end.
Proof.
  simpl. unfold bind at 1, catch, ret.
  now destruct (fill_attempt step v selector w) as [[[]|] w'].
Qed.



(** A successful loop has a candidate whose attempt returned [True]. *)
Lemma fill_loop_true step v :
  forall selectors w w',
    fill_loop step v selectors w = (Ok true, w') ->
    exists selector w1,
      In selector selectors /\
      fill_attempt step v selector w1 = (Ok true, w').
Proof.
  induction selectors as [|s rest IH]; intros w w' H;
    [discriminate|].
  rewrite fill_loop_cons in H.
  destruct (fill_attempt step v s w) as [[[]|] w1] eqn:E.
  - inversion H; subst. exists s, w. split; [now left|assumption].
  - destruct (IH _ _ H) as (s' & w2 & Hin & Ha).
    exists s', w2. split; [now right|assumption].
  - destruct (IH _ _ H) as (s' & w2 & Hin & Ha).
    exists s', w2. split; [now right|assumption].
Qed.

(** What a verified attempt went through. *)
Lemma fill_attempt_true step v selector w w' :
  fill_attempt step v selector w = (Ok true, w') ->
  exists w1 current_value,
    type_phase step v selector w = (Ok tt, w1) /\
    on_page (input_value selector) w1 = (Ok current_value, w') /\
    verified v current_value = true.
Proof.
  unfold fill_attempt, bind at 1.
  destruct (type_phase step v selector w) as [[[]|] w1] eqn:Et;
    [|discriminate].
  unfold bind, ret.
  destruct (on_page (input_value selector) w1) as [[cur|] w2] eqn:Er;
    [|discriminate].
  intros [= Hv <-]. now exists w1, cur.
Qed.

Lemma smart_fill_returns step w :
  exists b, fst (_smart_fill step w) = Ok b.
Proof.
  unfold _smart_fill, catch.
  match goal with |- context [match ?m w with _ => _ end] =>
    destruct (m w) as [[b|] w'] end; simpl; eauto.
Qed.

(** C4.  [_execute_step] always returns a boolean, whatever the page
    primitives do; in the candidate loops a failed attempt only moves
    the search on to the next candidate. *)
Theorem execute_step_never_raises :
  forall (step : AutomationStep) (w : World P),
    (exists success w', _execute_step step w = (Ok success, w')) /\
    (forall selector rest,
        click_loop step (selector :: rest) w =
        match click_attempt step selector w with
        | (Ok _, w') => (Ok true, w')
        | (Raise, w') => click_loop step rest w'
        end) /\
    (forall v selector rest,
        fill_loop step v (selector :: rest) w =
        match fill_attempt step v selector w with
        | (Ok true, w') => (Ok true, w')
        | (Ok false, w') | (Raise, w') => fill_loop step v rest w'
        end).
Proof.
  intros step w. split; [|split].
  - unfold _execute_step, catch.
    match goal with |- context [match ?m w with _ => _ end] =>
      destruct (m w) as [[b|] w'] end; unfold ret; eauto.
  - intros. apply click_loop_cons.
  - intros. apply fill_loop_cons.
Qed.


(** C3.  A mandatory Fill step with a non-empty value reports success
    only after typing into a candidate whose read-back contains the
    value, case-insensitively; when no read-back ever contains it, the
    step reports failure. *)
Theorem fill_success_requires_verified_readback :
  forall (step : AutomationStep) (v : string) (w : World P),
    value step = Some v -> truthy v = true -> optional step = false ->
    (fst (_smart_fill step w) = Ok true ->
     exists selector w1 w2 current_value w3,
       In selector
          (_get_smart_selectors (self w) (target step) "fill") /\
       type_phase step v selector w1 = (Ok tt, w2) /\
       on_page (input_value selector) w2 = (Ok current_value, w3) /\
       str_in (lower v) (lower current_value) = true) /\
    ((forall selector w1 current_value w2,
         on_page (input_value selector) w1 = (Ok current_value, w2) ->
         str_in (lower v) (lower current_value) = false) ->
     fst (_smart_fill step w) = Ok false).
Proof.
  intros step v w Hval Hv Hopt.
  assert (Hsucc :
    fst (_smart_fill step w) = Ok true ->
    exists selector w1 w2 current_value w3,
      In selector (_get_smart_selectors (self w) (target step) "fill") /\
      type_phase step v selector w1 = (Ok tt, w2) /\
      on_page (input_value selector) w2 = (Ok current_value, w3) /\
      str_in (lower v) (lower current_value) = true).
  { unfold _smart_fill, catch. rewrite Hval. cbn [otruthy].
    rewrite Hv, Hopt. cbn [negb].
    unfold bind at 1, get_self. unfold bind, ret.
    destruct (fill_loop step v
                (_get_smart_selectors (self w) (target step) "fill") w)
      as [[[]|] w1] eqn:E; simpl; try discriminate.
    intros _.
    destruct (fill_loop_true _ _ _ _ _ E) as (sel & wa & Hin & Hat).
    destruct (fill_attempt_true _ _ _ _ _ Hat) as (wb & cur & Ht & Hr & Hver).
    exists sel, wa, wb, cur, w1. repeat split; try assumption.
    unfold verified in Hver. now apply andb_prop in Hver. }
  split; [exact Hsucc|].
  intros Hnever.
  destruct (smart_fill_returns step w) as ([] & Hb); [|assumption].
  destruct (Hsucc Hb) as (sel & wa & wb & cur & wc & _ & _ & Hr & Hc).
  rewrite (Hnever _ _ _ _ Hr) in Hc. discriminate.
Qed.

(** C7.  [_navigate] completes the target with the scheme when it does
    not start with http, and succeeds exactly when the navigation
    returned a response whose status is below 400. *)
Theorem navigate_succeeds_iff_status_below_400 :
  forall (step : AutomationStep) (w : World P),
    fst (_navigate step w) =
    Ok match target step with
       | None => false
       | Some t =>
           let url := if startswith t "http" then t
                      else ("https://" ++ t)%string in
           match on_page (goto url 30000) w with
           | (Ok (Some response), _) => (status response <? 400)%Z
           | (Ok None, _) => false
           | (Raise, _) => false
           end
       end.
Proof.
  intros step w. unfold _navigate, catch.
  destruct (target step) as [t|]; [|reflexivity].
  cbv zeta.
  replace (if negb (startswith t "http")
           then ("https://" ++ t)%string else t)
    with (if startswith t "http" then t else ("https://" ++ t)%string)
    by now destruct (startswith t "http").
  unfold bind at 1.
  destruct (on_page (goto _ 30000) w) as [[[r|]|] w1];
    try reflexivity.
  destruct (status r <? 400)%Z; [|reflexivity].
  unfold bind at 1, modify_self. unfold bind at 1, catch.
  match goal with |- context [on_page ?op ?x] =>
    destruct (on_page op x) as [[[]|] w2] end; reflexivity.
Qed.

End WithRuntime.

Import Stub.






Lemma fill_success_requires_verified_readback_witness :
  fst (_smart_fill (R := sim_runtime rejecting_page)
         (fill_search "cats") live_world) = Ok false.
Proof.
  apply (proj2 (fill_success_requires_verified_readback
                  (R := sim_runtime rejecting_page)
                  (fill_search "cats") "cats" live_world
                  eq_refl eq_refl eq_refl)).
  intros selector w1 current_value w2. unfold on_page, call.
  destruct (page (self w1)); simpl; [|discriminate].
  intros [= <- _]. reflexivity.
Defined.

End ExecutorFacts.

(* ================================================================== *)
(** * The automation session                                           *)
(* ================================================================== *)

Module SessionFacts.
Import PyStr Planner Executor Session Vocabulary.

Section WithRuntime.
Context {P : Type} {R : Runtime P}.






























Lemma close_field_ok (f : Tool -> option handle)
      (op : handle -> P -> outcome unit * P) :
  (forall h p, fst (op h p) = Ok tt) ->
  forall w, exists w',
    close_field f op w = (Ok tt, w') /\
    (self w' = self w /\ next_handle w' = next_handle w) /\
    events w' =
      map Closed (match f (self w) with Some h => [h] | None => [] end)
      ++ events w.
Proof.
  intros Hop w. unfold close_field, close.
  destruct (f (self w)) as [h|]; [|now exists w].
  specialize (Hop h (env w)).
  destruct (op h (env w)) as [[[]|] e]; simpl in Hop; [|discriminate].
  eexists. repeat split.
Qed.

Lemma cleanup_closes_owned :
  closes_succeed R ->
  forall w, exists w',
    _cleanup_browser w = (Ok tt, w') /\
    self w' = self w /\
    next_handle w' = next_handle w /\
    events w' = map Closed (rev (owned (self w))) ++ events w.
Proof.
  intros Hc w. unfold _cleanup_browser, catch, bind.
  destruct (close_field_ok page page_close
              (fun h p => proj1 (Hc h p)) w)
    as (w1 & -> & (Hs1 & Hn1) & He1).
  destruct (close_field_ok context context_close
              (fun h p => proj1 (proj2 (Hc h p))) w1)
    as (w2 & -> & (Hs2 & Hn2) & He2).
  destruct (close_field_ok browser browser_close
              (fun h p => proj1 (proj2 (proj2 (Hc h p)))) w2)
    as (w3 & -> & (Hs3 & Hn3) & He3).
  destruct (close_field_ok playwright_instance pw_stop
              (fun h p => proj2 (proj2 (proj2 (Hc h p)))) w3)
    as (w4 & -> & (Hs4 & Hn4) & He4).
  exists w4. split; [reflexivity|].
  split; [congruence|]. split; [congruence|].
  rewrite He4, He3, He2, He1, Hs3, Hs2, Hs1. unfold owned.
  destruct (page (self w)), (context (self w)), (browser (self w)),
    (playwright_instance (self w)); reflexivity.
Qed.







End WithRuntime.

Import Stub.




(** A whole run against a page that accepts the typed text. *)
Example google_weather_run :
  fst (execute_automation (R := sim_runtime accepting_page)
         "Go to Google and search for weather" "" fresh_world)
  = Ok (Report
          [ Executing 4 "Go to Google and search for weather";
            StepStarted 1 "Navigate to Google"; StepCompleted 1;
            StepStarted 2 "Wait for Google to load"; StepCompleted 2;
            StepStarted 3 "Search for 'weather'"; StepCompleted 3;
            StepStarted 4 "Wait after typing"; StepCompleted 4;
            Completed ]).
Proof. vm_compute. reflexivity. Qed.

End SessionFacts.

(* ================================================================== *)
(** * Further properties of the session                                *)
(* ================================================================== *)

Module SessionMore.
Import PyStr Planner Executor Session Vocabulary Further.

Section WithRuntime.
Context {P : Type} {R : Runtime P}.





Lemma create_automation_plan_cases instruction url (w : World P) :
  _create_automation_plan instruction url w =
  if llm (self w) then
    match call (llm_plan instruction url) w with
    | (Ok plan, w') => (Ok plan, w')
    | (Raise, w') =>
        (Ok (_create_pattern_plan (self w) instruction url), w')
    end
  else (Ok (_create_pattern_plan (self w) instruction url), w).
Proof.
  unfold _create_automation_plan, _create_llm_plan, bind, get_self, catch, ret.
  destruct (llm (self w)); [|reflexivity].
  destruct (call (llm_plan instruction url) w) as [[plan|] w']; reflexivity.
Qed.


(** X2.  Planning never raises.  Without a language-model client the
    collaborator is not called and the pattern plan is returned; with one,
    its plan is returned as it is, and the pattern plan when the call
    raises. *)
Theorem create_automation_plan_falls_back :
  forall (instruction url : string) (w : World P),
  exists plan w',
    _create_automation_plan instruction url w = (Ok plan, w') /\
    self w' = self w /\
    match llm (self w), fst (llm_plan instruction url (env w)) with
    | true, Ok answered => plan = answered
    | true, Raise => plan = _create_pattern_plan (self w) instruction url
    | false, _ =>
        plan = _create_pattern_plan (self w) instruction url /\ w' = w
    end.
Proof.
  intros instruction url w. rewrite create_automation_plan_cases.
  unfold call. destruct (llm (self w)).
  - destruct (llm_plan instruction url (env w)) as [[plan|] e]; simpl;
      eexists; eexists; repeat split.
  - exists (_create_pattern_plan (self w) instruction url), w.
    repeat split.
Qed.


Lemma close_field_cases (f : Tool -> option handle)
      (op : handle -> P -> outcome unit * P) (w : World P) :
  exists r w',
    close_field f op w = (r, w') /\
    self w' = self w /\ next_handle w' = next_handle w /\
    match r with
    | Ok _ =>
        events w' =
        map Closed (match f (self w) with Some h => [h] | None => [] end)
        ++ events w
    | Raise => events w' = events w
    end.
Proof.
  unfold close_field, close. destruct (f (self w)) as [h|].
  - destruct (op h (env w)) as [[[]|] e]; do 2 eexists; repeat split.
  - exists (Ok tt), w. repeat split.
Qed.

(** X4.  [_cleanup_browser] never raises and never clears the tool's
    fields.  It makes the close calls for the objects the tool refers to
    in the order page, context, browser, playwright, up to and including
    the first call that raises: exactly the objects before that call are
    recorded as closed, in that order, and the later ones are not
    touched. *)
Theorem cleanup_closes_up_to_first_raise :
  forall (w : World P),
    let calls := close_calls (self w) in
    let closed := fst (close_until_raise calls (env w)) in
    let e' := snd (close_until_raise calls (env w)) in
    _cleanup_browser w =
      (Ok tt, mkWorld (self w) e' (next_handle w)
                      (map Closed (rev closed) ++ events w)) /\
    map fst calls = owned (self w) /\
    exists rest, owned (self w) = closed ++ rest.
Proof.
  intros [[cfg b p c pw url has_llm] e n evs]. cbv zeta.
  unfold _cleanup_browser, catch, bind, ret, close_field, close, close_calls,
    owned.
  simpl.
  destruct p as [h1|], c as [h2|], b as [h3|], pw as [h4|]; simpl;
    repeat match goal with
      | |- context [match ?op ?h ?x with _ => _ end] =>
          destruct (op h x) as [[[]|] ?]; simpl
      end;
    (split; [reflexivity|split; [reflexivity|]]);
    eexists; simpl; reflexivity.
Qed.

(** X5.  When playwright fails to start, nothing is created and the run
    returns the critical-error message, but cleanup still closes every
    object the tool's fields refer to: on a tool that ran before, these
    are the objects of the earlier run, closed once more. *)
Theorem failed_start_closes_earlier_objects :
  forall (instruction url : string) (w : World P),
    closes_succeed R ->
    fst (pw_start (env w)) = Raise ->
    exists w',
      execute_automation instruction url w = (Ok CriticalError, w') /\
      self w' = self w /\
      next_handle w' = next_handle w /\
      events w' = map Closed (rev (owned (self w))) ++ events w.
Proof.
  intros instruction url w Hc Hstart.
  unfold execute_automation, finally, catch. unfold bind at 1.
  unfold _init_browser. unfold bind at 1, create.
  destruct (pw_start (env w)) as [[[]|] e]; simpl in Hstart;
    [discriminate|].
  unfold ret.
  destruct (SessionFacts.cleanup_closes_owned Hc
              (mkWorld (self w) e (next_handle w) (events w)))
    as (w' & -> & Hs & Hn & He).
  exists w'. repeat split; assumption.
Qed.

(** X6.  When [_init_browser] returns, the tool refers to four objects
    created by this call, in the order playwright, browser, context,
    page, whatever its fields held before; the configuration, the
    current URL and the language-model client are untouched. *)
Theorem init_browser_installs_fresh_objects :
  forall (w w' : World P),
    _init_browser w = (Ok tt, w') ->
    let n := next_handle w in
    playwright_instance (self w') = Some n /\
    browser (self w') = Some (S n) /\
    context (self w') = Some (S (S n)) /\
    page (self w') = Some (S (S (S n))) /\
    next_handle w' = S (S (S (S n))) /\
    events w' = [Created (S (S (S n))); Created (S (S n));
                 Created (S n); Created n] ++ events w /\
    config (self w') = config (self w) /\
    current_url (self w') = current_url (self w) /\
    llm (self w') = llm (self w).
Proof.
  intros w w'.
  unfold _init_browser, bind, create, modify_self, get_self, the_field,
    on_page, call.
  destruct (pw_start (env w)) as [[[]|] e1]; simpl; [|discriminate].
  destruct (chromium_launch _ _ e1) as [[[]|] e2]; simpl; [|discriminate].
  destruct (new_context _ _ e2) as [[[]|] e3]; simpl; [|discriminate].
  destruct (new_page _ e3) as [[[]|] e4]; simpl; [|discriminate].
  destruct (set_default_timeout _ _ e4) as [[[]|] e5]; simpl;
    [|discriminate].
  intros [= <-]. simpl. repeat split.
Qed.

End WithRuntime.

Import Stub.

Lemma failing_start_closes_succeed :
  closes_succeed (with_failing_start (sim_runtime accepting_page)).
Proof. intros h p. repeat split. Qed.

Lemma failed_start_closes_earlier_objects_witness :
  let w1 := snd (execute_automation (R := sim_runtime accepting_page)
                   "Go to Google and search for weather" "" fresh_world) in
  exists w',
    execute_automation (R := with_failing_start (sim_runtime accepting_page))
      "Go to Google and search for weather" "" w1 = (Ok CriticalError, w') /\
    self w' = self w1 /\
    next_handle w' = next_handle w1 /\
    events w' = map Closed (rev (owned (self w1))) ++ events w1.
Proof.
  apply (failed_start_closes_earlier_objects
           (R := with_failing_start (sim_runtime accepting_page))
           "Go to Google and search for weather" ""
           (snd (execute_automation (R := sim_runtime accepting_page)
                   "Go to Google and search for weather" "" fresh_world))
           failing_start_closes_succeed).
  reflexivity.
Defined.

(** The page of the first run ends up closed twice. *)
Example second_run_closes_first_page_again :
  let w1 := snd (execute_automation (R := sim_runtime accepting_page)
                   "Go to Google and search for weather" "" fresh_world) in
  let w2 := snd (execute_automation
                   (R := with_failing_start (sim_runtime accepting_page))
                   "Go to Google and search for weather" "" w1) in
  page (self w1) = Some 3 /\ close_count 3 (events w1) = 1 /\
  close_count 3 (events w2) = 2.
Proof. vm_compute. repeat split. Qed.

Lemma init_browser_installs_fresh_objects_witness :
  let w' := snd (_init_browser (R := sim_runtime accepting_page) live_world) in
  playwright_instance (self w') = Some 4 /\
  browser (self w') = Some 5 /\
  context (self w') = Some 6 /\
  page (self w') = Some 7 /\
  next_handle w' = 8 /\
  events w' = [Created 7; Created 6; Created 5; Created 4]
              ++ events live_world /\
  config (self w') = config (self live_world) /\
  current_url (self w') = current_url (self live_world) /\
  llm (self w') = llm (self live_world).
Proof.
  apply (init_browser_installs_fresh_objects
           (R := sim_runtime accepting_page) live_world).
  reflexivity.
Defined.

End SessionMore.

(* ================================================================== *)
(** * Further properties of the step executor                          *)
(* ================================================================== *)

Module ExecutorMore.
Import PyStr Planner Executor Session Vocabulary Further.

(** ** What the actions leave alone *)

Section Keeping.
Context {P : Type} {R : Runtime P}.
Variable rel : World P -> World P -> Prop.
Hypothesis rel_refl : forall w, rel w w.
Hypothesis rel_trans : forall w1 w2 w3, rel w1 w2 -> rel w2 w3 -> rel w1 w3.
Hypothesis rel_env :
  forall w e, rel w (mkWorld (self w) e (next_handle w) (events w)).

Lemma Keeps_ret {A} (a : A) : Keeps rel (ret (P := P) a).
Proof. intros w. apply rel_refl. Qed.

Lemma Keeps_raise {A} : Keeps rel (raise (P := P) (A := A)).
Proof. intros w. apply rel_refl. Qed.

Lemma Keeps_bind {A B} (m : M (P := P) A) (f : A -> M B) :
  Keeps rel m -> (forall a, Keeps rel (f a)) -> Keeps rel (bind m f).
Proof.
  intros Hm Hf w. unfold bind. specialize (Hm w).
  destruct (m w) as [[a|] w1]; simpl in Hm; [|assumption].
  eapply rel_trans; [exact Hm|apply Hf].
Qed.

Lemma Keeps_catch {A} (m h : M (P := P) A) :
  Keeps rel m -> Keeps rel h -> Keeps rel (catch m h).
Proof.
  intros Hm Hh w. unfold catch. specialize (Hm w).
  destruct (m w) as [[a|] w1]; simpl in Hm; [assumption|].
  eapply rel_trans; [exact Hm|apply Hh].
Qed.

Lemma Keeps_on_page {A} (op : handle -> P -> outcome A * P) :
  Keeps rel (on_page op).
Proof.
  intros w. unfold on_page, call. destruct (page (self w)) as [h|];
    [|apply rel_refl].
  destruct (op h (env w)) as [r e]. apply rel_env.
Qed.

Lemma Keeps_sleep ms : Keeps rel (sleep (P := P) ms).
Proof. intros w. apply rel_env. Qed.

Lemma Keeps_get_self : Keeps rel (get_self (P := P)).
Proof. intros w. apply rel_refl. Qed.

Lemma Keeps_now :
  Keeps rel (fun w : World P => (Ok (now_stamp (env w)), w)).
Proof. intros w. apply rel_refl. Qed.

Ltac keeps :=
  repeat first
    [ apply Keeps_ret | apply Keeps_raise | apply Keeps_on_page
    | apply Keeps_sleep | apply Keeps_get_self | apply Keeps_now
    | assumption
    | apply Keeps_catch
    | apply Keeps_bind; [|intros ?]
    | match goal with
      | |- Keeps _ (if ?b then _ else _) => destruct b
      | |- Keeps _ (match ?x with _ => _ end) => destruct x
      | |- Keeps _ (let _ := _ in _) => cbv zeta
      end ].

Lemma Keeps_click_loop step selectors :
  Keeps rel (click_loop step selectors).
Proof.
  induction selectors as [|s rest IH]; simpl; [keeps|].
  apply Keeps_bind; [unfold attempt, click_attempt; keeps|].
  intros []; keeps.
Qed.

Lemma Keeps_fill_loop step v selectors :
  Keeps rel (fill_loop step v selectors).
Proof.
  induction selectors as [|s rest IH]; simpl; [keeps|].
  apply Keeps_bind; [unfold fill_attempt, type_phase; keeps|].
  intros []; keeps.
Qed.

Lemma Keeps_smart_click step : Keeps rel (_smart_click step).
Proof.
  unfold _smart_click. apply Keeps_catch; [|keeps].
  apply Keeps_bind;
    [destruct (enter_hint step); [unfold attempt, enter_attempt|]; keeps|].
  intros []; [keeps|].
  apply Keeps_bind; [keeps|intros t].
  apply Keeps_bind; [apply Keeps_click_loop|].
  intros []; [keeps|].
  apply Keeps_bind; [|intros []; keeps].
  destruct (target step) as [x|]; [|keeps].
  destruct (truthy x); [|keeps].
  unfold attempt, text_attempt. keeps.
Qed.

Lemma Keeps_smart_fill step : Keeps rel (_smart_fill step).
Proof.
  unfold _smart_fill. apply Keeps_catch; [|keeps].
  destruct (negb (otruthy (value step))); [keeps|].
  cbv zeta. apply Keeps_bind; [keeps|intros t].
  apply Keeps_bind; [apply Keeps_fill_loop|intros []; keeps].
Qed.

Lemma Keeps_wait step : Keeps rel (_wait step).
Proof. unfold _wait. keeps. Qed.

Lemma Keeps_scroll step : Keeps rel (_scroll step).
Proof. unfold _scroll. keeps. Qed.

Lemma Keeps_screenshot step : Keeps rel (_screenshot step).
Proof. unfold _screenshot. keeps. Qed.

Lemma Keeps_wait_after_action step b :
  Keeps rel (wait_after_action step b).
Proof. unfold wait_after_action. keeps. Qed.

(** With [_navigate] taken care of, so is [_execute_step]. *)
Lemma Keeps_execute_step step :
  (action step = NAVIGATE -> Keeps rel (_navigate step)) ->
  Keeps rel (_execute_step step).
Proof.
  intros Hnav. unfold _execute_step. apply Keeps_catch; [|apply Keeps_ret].
  destruct (action step); try apply Keeps_ret;
    (apply Keeps_bind; [|intros ?; apply Keeps_wait_after_action]).
  - now apply Hnav.
  - apply Keeps_smart_click.
  - apply Keeps_smart_fill.
  - apply Keeps_wait.
  - apply Keeps_scroll.
  - apply Keeps_screenshot.
Qed.

End Keeping.

Section WithRuntime.
Context {P : Type} {R : Runtime P}.

Lemma kept_refl (w : World P) : kept w w.
Proof. repeat split. Qed.

Lemma kept_trans (w1 w2 w3 : World P) :
  kept w1 w2 -> kept w2 w3 -> kept w1 w3.
Proof.
  unfold kept. intros (a1 & a2 & a3) (b1 & b2 & b3).
  repeat split; congruence.
Qed.

Lemma kept_env (w : World P) e :
  kept w (mkWorld (self w) e (next_handle w) (events w)).
Proof. repeat split. Qed.

Lemma kept_but_url_refl (w : World P) : kept_but_url w w.
Proof. repeat split. Qed.

Lemma kept_but_url_trans (w1 w2 w3 : World P) :
  kept_but_url w1 w2 -> kept_but_url w2 w3 -> kept_but_url w1 w3.
Proof.
  unfold kept_but_url. intros (a1 & a2 & a3) (b1 & b2 & b3).
  repeat split; congruence.
Qed.

Lemma kept_but_url_env (w : World P) e :
  kept_but_url w (mkWorld (self w) e (next_handle w) (events w)).
Proof. repeat split. Qed.

Lemma navigate_keeps_but_url step : Keeps kept_but_url (_navigate step).
Proof.
  intros w.
  unfold _navigate, catch, bind, on_page, call, modify_self, sleep, ret, raise.
  destruct (target step) as [t|]; [|repeat split].
  cbv zeta. destruct (page (self w)) as [h|] eqn:Hp; [|repeat split].
  destruct (goto _ 30000 h (env w)) as [[[r|]|] e]; simpl;
    try (repeat split; fail).
  destruct (status r <? 400)%Z; simpl; [|repeat split].
  rewrite Hp.
  destruct (wait_for_load_state "networkidle" 10000 h e) as [[[]|] e'];
    unfold kept_but_url; simpl; repeat split.
Qed.

(** X7.  Executing a step creates and closes no browser object and leaves
    the tool's fields alone, but for [current_url]; and only a Navigate
    step can change that. *)
Theorem execute_step_changes_only_current_url :
  forall (step : AutomationStep) (w : World P),
    if ActionType_eqb (action step) NAVIGATE
    then kept_but_url w (snd (_execute_step step w))
    else kept w (snd (_execute_step step w)).
Proof.
  intros step w. destruct (ActionType_eqb (action step) NAVIGATE) eqn:E.
  - apply (Keeps_execute_step kept_but_url kept_but_url_refl
             kept_but_url_trans kept_but_url_env).
    intros _. apply navigate_keeps_but_url.
  - apply (Keeps_execute_step kept kept_refl kept_trans kept_env).
    intros Hnav. rewrite Hnav in E. discriminate.
Qed.

Lemma navigate_returns (step : AutomationStep) (w : World P) :
  exists b, fst (_navigate step w) = Ok b.
Proof.
  unfold _navigate, catch.
  match goal with |- context [match ?m w with _ => _ end] =>
    destruct (m w) as [[b|] w'] end; simpl; eauto.
Qed.

Lemma navigate_url_cases :
  forall (step : AutomationStep) (w : World P),
    match fst (_navigate step w) with
    | Ok true =>
        exists t,
          target step = Some t /\
          current_url (self (snd (_navigate step w))) =
          if startswith t "http" then t else ("https://" ++ t)%string
    | _ =>
        current_url (self (snd (_navigate step w))) = current_url (self w)
    end.
Proof.
  intros step w.
  unfold _navigate, catch, bind, on_page, call, modify_self, sleep, ret, raise.
  destruct (target step) as [t|]; [|reflexivity].
  cbv zeta. destruct (page (self w)) as [h|] eqn:Hp; [|reflexivity].
  destruct (goto _ 30000 h (env w)) as [[[r|]|] e]; simpl;
    try reflexivity.
  destruct (status r <? 400)%Z; simpl; [|reflexivity].
  rewrite Hp.
  destruct (wait_for_load_state "networkidle" 10000 h e) as [[[]|] e'];
    simpl; exists t; (split; [reflexivity|]);
    now destruct (startswith t "http").
Qed.

(** X8.  [_navigate] records the URL it went to exactly when it reports
    success; on failure [current_url] keeps its old value.  It never
    raises. *)
Theorem navigate_records_url_on_success :
  forall (step : AutomationStep) (w : World P),
  exists success,
    fst (_navigate step w) = Ok success /\
    current_url (self (snd (_navigate step w))) =
    match target step, success with
    | Some t, true =>
        if startswith t "http" then t else ("https://" ++ t)%string
    | _, _ => current_url (self w)
    end.
Proof.
  intros step w. pose proof (navigate_url_cases step w) as H.
  destruct (navigate_returns step w) as (b & Hb). rewrite Hb in H.
  exists b. split; [assumption|].
  destruct b.
  - destruct H as (t & -> & H). exact H.
  - rewrite H. now destruct (target step).
Qed.

(** X9.  A Wait step whose fields hold values of the annotated types,
    with a [wait_after] of at most [max_pause], succeeds and pauses
    twice: [_wait] sleeps for [wait_after] and the pause after a
    successful action sleeps for it again; with [wait_after] zero or
    negative it sleeps once, for one second.  (A step of a language-model
    plan with [wait_after] null is not of this kind: there the comparison
    with 0 raises and the step fails.) *)
Theorem wait_step_pauses_twice :
  forall (raw : RawStep) (step : AutomationStep) (w : World P),
    typed_step raw = Some step ->
    (wait_after step <= max_pause)%Z ->
    action step = WAIT ->
    _execute_step step w =
    (Ok true,
     if (wait_after step >? 0)%Z
     then slept (wait_after step) (slept (wait_after step) w)
     else slept 1000 w).
Proof.
  intros raw step w _ _ Ha.
  unfold _execute_step, _wait, wait_after_action, catch, bind, sleep, ret,
    slept.
  rewrite Ha. cbv zeta.
  destruct (wait_after step >? 0)%Z; reflexivity.
Qed.

(** X10.  Extract-text and Hover steps are never carried out: the step
    loop reports them as failed, or as skipped when optional, without
    touching the page, and goes on with the rest of the plan. *)
Theorem unsupported_steps_are_reported_failed :
  forall (step : AutomationStep) (rest : list AutomationStep) (i : nat)
         (results : list entry) (w : World P),
    action step = EXTRACT_TEXT \/ action step = HOVER ->
    run_steps (step :: rest) i results w =
    run_steps rest (S i)
      (results ++ [ StepStarted i (description step);
                    if optional step then StepSkipped i else StepFailed i ])
      w.
Proof.
  intros step rest i results w Ha. simpl.
  unfold bind at 1, catch, _execute_step, bind, ret.
  destruct Ha as [-> | ->]; simpl; now rewrite <- app_assoc.
Qed.


Lemma attempt_returns (m : M (P := P) unit) w :
  exists b w', attempt m w = (Ok b, w').
Proof.
  rewrite ExecutorFacts.attempt_unfold. destruct (m w) as [[[]|] w']; eauto.
Qed.

(** A successful candidate loop clicked one of its candidates. *)
Lemma click_loop_outcome step selectors :
  forall w,
  exists b w',
    click_loop step selectors w = (Ok b, w') /\
    (b = false \/
     exists selector w1,
       In selector selectors /\
       click_attempt step selector w1 = (Ok tt, w')).
Proof.
  induction selectors as [|s rest IH]; intros w.
  - exists false, w. split; [reflexivity|now left].
  - rewrite ExecutorFacts.click_loop_cons.
    destruct (click_attempt step s w) as [[[]|] w1] eqn:E.
    + exists true, w1. split; [reflexivity|]. right.
      exists s, w. split; [now left|assumption].
    + destruct (IH w1) as (b & w' & H & [Hb|(sel & w2 & Hin & Hat)]);
        exists b, w'; (split; [assumption|]); [now left|right].
      exists sel, w2. split; [now right|assumption].
Qed.

(** How [_smart_click] ends: having acted, or with the optional flag
    when every attempt failed. *)
Lemma smart_click_outcome step (w : World P) :
  exists b w',
    _smart_click step w = (Ok b, w') /\
    ((b = true /\ click_acted step w w') \/ b = optional step).
Proof.
  assert (Hrest : forall w1,
    exists b w',
      (self0 <- get_self ;;
       clicked <- click_loop step
                    (_get_smart_selectors self0 (target step) "click") ;;
       if clicked then ret true else
       by_text <- match target step with
                  | Some t => if truthy t then attempt (text_attempt t)
                              else ret false
                  | None => ret false
                  end ;;
       if by_text then ret true else ret (optional step)) w1
      = (Ok b, w') /\
      ((b = true /\
        ((exists selector w2,
             In selector
                (_get_smart_selectors (self w) (target step) "click") /\
             click_attempt step selector w2 = (Ok tt, w')) \/
         (exists t w2,
             target step = Some t /\ text_attempt t w2 = (Ok tt, w'))))
       \/ b = optional step)).
  { intros w1. unfold bind at 1, get_self. unfold bind at 1.
    destruct (click_loop_outcome step
                (_get_smart_selectors (self w1) (target step) "click") w1)
      as (b & w2 & -> & Hb).
    destruct b.
    - destruct Hb as [Hb|(sel & wa & Hin & Hat)]; [discriminate|].
      exists true, w2. split; [reflexivity|]. left. split; [reflexivity|].
      left. now exists sel, wa.
    - unfold bind.
      destruct (target step) as [t|];
        [|exists (optional step), w2; split; [reflexivity|now right]].
      destruct (truthy t);
        [|exists (optional step), w2; split; [reflexivity|now right]].
      rewrite ExecutorFacts.attempt_unfold.
      destruct (text_attempt t w2) as [[[]|] w3] eqn:Et.
      + exists true, w3. split; [reflexivity|]. left. split; [reflexivity|].
        right. now exists t, w2.
      + exists (optional step), w3. split; [reflexivity|now right]. }
  unfold _smart_click, catch. unfold bind at 1.
  destruct (enter_hint step) eqn:Hh.
  - rewrite ExecutorFacts.attempt_unfold.
    destruct (enter_attempt w) as [[[]|] w1] eqn:He.
    + exists true, w1. split; [reflexivity|]. left. split; [reflexivity|].
      left. now split.
    + destruct (Hrest w1) as (b & w' & -> & H). exists b, w'.
      split; [reflexivity|].
      destruct H as [(Hb & H)|H]; [left|now right].
      split; [assumption|]. right. exact H.
  - unfold ret at 1.
    destruct (Hrest w) as (b & w' & -> & H). exists b, w'.
    split; [reflexivity|].
    destruct H as [(Hb & H)|H]; [left|now right].
    split; [assumption|]. right. exact H.
Qed.

Lemma fill_loop_returns step v selectors :
  forall w, exists b w', fill_loop step v selectors w = (Ok b, w').
Proof.
  induction selectors as [|s rest IH]; intros w; [now exists false, w|].
  rewrite ExecutorFacts.fill_loop_cons.
  destruct (fill_attempt step v s w) as [[[]|] w1]; eauto.
Qed.

Lemma smart_fill_outcome step (w : World P) :
  exists b w',
    _smart_fill step w = (Ok b, w') /\
    (b = true \/ b = optional step \/
     (b = false /\ otruthy (value step) = false)).
Proof.
  unfold _smart_fill, catch.
  destruct (otruthy (value step)); cbn [negb].
  - unfold bind at 1, get_self. unfold bind.
    match goal with |- context [fill_loop step ?v ?l w] =>
      destruct (fill_loop_returns step v l w) as ([] & w1 & ->) end.
    + exists true, w1. split; [reflexivity|now left].
    + exists (optional step), w1. split; [reflexivity|right; now left].
  - exists false, w. split; [reflexivity|]. right. right. now split.
Qed.

(** X12.  For a step whose fields hold values of the annotated types, an
    optional Click never reports failure, and neither does an optional
    Fill that carries a value: [_smart_click] returns false only for a
    mandatory step, [_smart_fill] only for a mandatory step or a missing
    value.  (With a target that is not a string, as a language-model
    plan can supply it, [target.lower()] raises and an optional Click
    does report failure.) *)
Theorem optional_click_and_fill_never_fail :
  forall (raw : RawStep) (step : AutomationStep) (w : World P),
    typed_step raw = Some step ->
    (fst (_smart_click step w) = Ok true \/
     (fst (_smart_click step w) = Ok false /\ optional step = false)) /\
    (fst (_smart_fill step w) = Ok true \/
     (fst (_smart_fill step w) = Ok false /\
      (optional step = false \/ otruthy (value step) = false))).
Proof.
  intros raw step w _. split.
  - destruct (smart_click_outcome step w) as (b & w' & -> & [(-> & _)| -> ]);
      [now left|].
    simpl. destruct (optional step); [now left|right; now split].
  - destruct (smart_fill_outcome step w)
      as (b & w' & -> & [ -> |[ -> |( -> & Hv)]]); simpl.
    + now left.
    + destruct (optional step); [now left|right; split; [reflexivity|now left]].
    + right. split; [reflexivity|now right].
Qed.

(** X13.  A mandatory Click step reports success only when something was
    acted on: the Enter key was pressed for a search-like target, one of
    the candidate selectors was clicked, or the element with the target
    text was clicked. *)
Theorem mandatory_click_success_means_acted :
  forall (step : AutomationStep) (w : World P),
    optional step = false ->
    fst (_smart_click step w) = Ok true ->
    exists w',
      (enter_hint step = true /\ enter_attempt w = (Ok tt, w')) \/
      (exists selector w1,
          In selector
             (_get_smart_selectors (self w) (target step) "click") /\
          click_attempt step selector w1 = (Ok tt, w')) \/
      (exists t w1,
          target step = Some t /\ text_attempt t w1 = (Ok tt, w')).
Proof.
  intros step w Hopt Hres.
  destruct (smart_click_outcome step w) as (b & w' & Hrun & [(_ & H)|Hb]).
  - now exists w'.
  - rewrite Hrun in Hres. simpl in Hres. congruence.
Qed.

(** X14.  For a target that hints at a search submission, a successful
    Enter keystroke ends the Click step at once, after a pause of one
    second: no selector is waited for and nothing is clicked. *)
Theorem enter_key_short_circuits_click :
  forall (step : AutomationStep) (w w1 : World P),
    enter_hint step = true ->
    on_page (keyboard_press "Enter") w = (Ok tt, w1) ->
    _smart_click step w = (Ok true, slept 1000 w1).
Proof.
  intros step w w1 Hh Hk.
  unfold _smart_click, catch. unfold bind at 1. rewrite Hh.
  rewrite ExecutorFacts.attempt_unfold.
  unfold enter_attempt, bind. rewrite Hk. reflexivity.
Qed.

(** X15.  A Click step without a target and a Fill step without a value
    send nothing to the page: the first returns its optional flag, the
    second fails, and the world is as before. *)
Theorem click_without_target_and_fill_without_value :
  forall (step : AutomationStep) (w : World P),
    (otruthy (target step) = false ->
     _smart_click step w = (Ok (optional step), w)) /\
    (otruthy (value step) = false ->
     _smart_fill step w = (Ok false, w)).
Proof.
  intros step w. split; intros H.
  - unfold _smart_click, enter_hint, _get_smart_selectors, catch, bind,
      get_self, ret.
    destruct (target step) as [t|]; simpl in H |- *; [|reflexivity].
    rewrite H. reflexivity.
  - unfold _smart_fill, catch, ret. now rewrite H.
Qed.

End WithRuntime.

Import Stub.

Lemma wait_step_pauses_twice_witness :
  _execute_step (R := sim_runtime accepting_page)
    (with_wait_after 3000 (Step WAIT "Wait for YouTube to load")) live_world
  = (Ok true,
     slept (R := sim_runtime accepting_page) 3000
       (slept (R := sim_runtime accepting_page) 3000 live_world)).
Proof.
  apply (wait_step_pauses_twice (R := sim_runtime accepting_page)
           (raw_of_step
              (with_wait_after 3000 (Step WAIT "Wait for YouTube to load")))
           (with_wait_after 3000 (Step WAIT "Wait for YouTube to load"))
           live_world).
  - reflexivity.
  - vm_compute. discriminate.
  - reflexivity.
Defined.

Lemma optional_click_and_fill_never_fail_witness :
  (fst (_smart_click (R := sim_runtime empty_page) optional_click live_world)
   = Ok true \/
   (fst (_smart_click (R := sim_runtime empty_page) optional_click live_world)
    = Ok false /\ optional optional_click = false)) /\
  (fst (_smart_fill (R := sim_runtime empty_page) optional_click live_world)
   = Ok true \/
   (fst (_smart_fill (R := sim_runtime empty_page) optional_click live_world)
    = Ok false /\
    (optional optional_click = false \/
     otruthy (value optional_click) = false))).
Proof.
  apply (optional_click_and_fill_never_fail (R := sim_runtime empty_page)
           (raw_of_step optional_click) optional_click live_world).
  reflexivity.
Defined.

Lemma unsupported_steps_are_reported_failed_witness :
  run_steps (R := sim_runtime accepting_page)
    [Step HOVER "Hover over the menu"] 1 [] live_world
  = run_steps (R := sim_runtime accepting_page) [] 2
      [StepStarted 1 "Hover over the menu"; StepFailed 1] live_world.
Proof.
  apply (unsupported_steps_are_reported_failed
           (R := sim_runtime accepting_page)
           (Step HOVER "Hover over the menu") [] 1 [] live_world).
  right. reflexivity.
Defined.


Lemma mandatory_click_success_means_acted_witness :
  let step := with_target "first_video" (Step CLICK "Click first video") in
  exists w',
    (enter_hint step = true /\
     enter_attempt (R := sim_runtime accepting_page) live_world
     = (Ok tt, w')) \/
    (exists selector w1,
        In selector
           (_get_smart_selectors (self live_world) (target step) "click") /\
        click_attempt (R := sim_runtime accepting_page) step selector w1
        = (Ok tt, w')) \/
    (exists t w1,
        target step = Some t /\
        text_attempt (R := sim_runtime accepting_page) t w1 = (Ok tt, w')).
Proof.
  apply (mandatory_click_success_means_acted
           (R := sim_runtime accepting_page)
           (with_target "first_video" (Step CLICK "Click first video"))
           live_world);
    reflexivity.
Defined.

Lemma enter_key_short_circuits_click_witness :
  _smart_click (R := sim_runtime accepting_page) submit_step live_world
  = (Ok true, slept (R := sim_runtime accepting_page) 1000 live_world).
Proof.
  apply (enter_key_short_circuits_click (R := sim_runtime accepting_page)
           submit_step live_world live_world);
    reflexivity.
Defined.

Lemma click_without_target_and_fill_without_value_witness :
  _smart_click (R := sim_runtime accepting_page)
    (with_optional true (Step CLICK "Click something")) live_world
  = (Ok true, live_world) /\
  _smart_fill (R := sim_runtime accepting_page)
    (with_value "" (with_target "search" (Step FILL "Search for ''")))
    live_world
  = (Ok false, live_world).
Proof.
  split.
  - apply (proj1 (click_without_target_and_fill_without_value
                    (R := sim_runtime accepting_page)
                    (with_optional true (Step CLICK "Click something"))
                    live_world)).
    reflexivity.
  - apply (proj2 (click_without_target_and_fill_without_value
                    (R := sim_runtime accepting_page)
                    (with_value ""
                       (with_target "search" (Step FILL "Search for ''")))
                    live_world)).
    reflexivity.
Defined.

End ExecutorMore.

(* ================================================================== *)
(** * Further properties of the planner                                *)
(* ================================================================== *)

Module PlannerMore.
Import PyStr PyStrFacts Planner Executor Further.

(** The phrase is the join of the words it splits into. *)
Lemma extract_is_join self instruction :
  exists ws,
    _extract_search_query self instruction = join " " ws /\
    Forall (fun w => is_word w = true) ws.
Proof.
  unfold _extract_search_query.
  destruct (first_match patterns (lower instruction)) as [g|].
  - eexists. split; [reflexivity|].
    apply Forall_filter. apply split_all_words.
  - destruct (filter is_meaningful (split (lower instruction)))
      as [|m ms] eqn:E.
    + exists ["cats"]. split; [reflexivity|]. now constructor.
    + eexists. split; [reflexivity|].
      apply Forall_firstn. rewrite <- E.
      apply Forall_filter. apply split_all_words.
Qed.

Lemma join_words_empty ws :
  Forall (fun w => is_word w = true) ws -> join " " ws = "" -> ws = [].
Proof.
  intros Hws He. apply split_join in Hws. rewrite He in Hws.
  now rewrite <- Hws.
Qed.

(** X16.  The extracted phrase is whitespace-normalised: no leading or
    trailing whitespace, and its words are separated by single spaces, so
    splitting it and joining the words again gives the phrase back. *)
Theorem extract_search_query_is_normalised :
  forall (self : Tool) (instruction : string),
    join " " (split (_extract_search_query self instruction))
    = _extract_search_query self instruction.
Proof.
  intros self instruction.
  destruct (extract_is_join self instruction) as (ws & -> & Hws).
  now rewrite split_join.
Qed.

Lemma fallback_phrase_words self instruction :
  first_match patterns (lower instruction) = None ->
  _extract_search_query self instruction <> "" /\
  1 <= List.length (split (_extract_search_query self instruction)) <= 5.
Proof.
  intros Hm. unfold _extract_search_query. rewrite Hm.
  destruct (filter is_meaningful (split (lower instruction)))
    as [|m ms] eqn:E.
  - split; [discriminate|]. simpl. lia.
  - assert (Hws : Forall (fun w => is_word w = true) (firstn 5 (m :: ms))).
    { apply Forall_firstn. rewrite <- E.
      apply Forall_filter. apply split_all_words. }
    rewrite (split_join _ Hws). split.
    + intros He. apply (join_words_empty _ Hws) in He. discriminate.
    + rewrite length_firstn. simpl List.length. lia.
Qed.

(** X17.  When none of the four patterns matches, the phrase is never
    empty and has at most five words, none of which is a skip word or
    ends with .com. *)
Theorem fallback_phrase_has_one_to_five_words :
  forall (self : Tool) (instruction : string),
    first_match patterns (lower instruction) = None ->
    _extract_search_query self instruction <> "" /\
    1 <= List.length (split (_extract_search_query self instruction)) <= 5 /\
    (_extract_search_query self instruction = "cats" \/
     Forall (fun w => is_meaningful w = true)
            (split (_extract_search_query self instruction))).
Proof.
  intros self instruction Hm.
  destruct (fallback_phrase_words self instruction Hm) as (Hne & Hlen).
  split; [assumption|]. split; [assumption|].
  unfold _extract_search_query. rewrite Hm.
  destruct (filter is_meaningful (split (lower instruction)))
    as [|m ms] eqn:E; [now left|right].
  rewrite split_join.
  - apply Forall_firstn. rewrite <- E. apply Forall_filter_true.
  - apply Forall_firstn. rewrite <- E.
    apply Forall_filter. apply split_all_words.
Qed.

Lemma fallback_phrase_witness :
  let phrase :=
    _extract_search_query Stub.fresh_tool
      "Visit Wikipedia, read the article on Python programming today" in
  phrase <> "" /\
  1 <= List.length (split phrase) <= 5 /\
  (phrase = "cats" \/
   Forall (fun w => is_meaningful w = true) (split phrase)).
Proof.
  apply (fallback_phrase_has_one_to_five_words Stub.fresh_tool
           "Visit Wikipedia, read the article on Python programming today").
  vm_compute. reflexivity.
Defined.

(** X18.  The phrase is empty exactly when a pattern matched and every
    word it captured is a stop word. *)
Theorem extract_search_query_empty_iff :
  forall (self : Tool) (instruction : string),
    _extract_search_query self instruction = "" <->
    exists g,
      first_match patterns (lower instruction) = Some g /\
      forallb is_stop_word (split (strip g)) = true.
Proof.
  intros self instruction. split.
  - intros He.
    destruct (first_match patterns (lower instruction)) as [g|] eqn:Hm.
    + exists g. split; [reflexivity|].
      unfold _extract_search_query in He. rewrite Hm in He.
      apply join_words_empty in He;
        [|apply Forall_filter; apply split_all_words].
      induction (split (strip g)) as [|w ws IH]; [reflexivity|].
      simpl in He |- *. destruct (is_stop_word w); simpl in *;
        [now apply IH|discriminate].
    + now destruct (fallback_phrase_words self instruction Hm).
  - intros (g & Hm & Hall). unfold _extract_search_query. rewrite Hm.
    replace (filter (fun w => negb (is_stop_word w)) (split (strip g)))
      with (@nil string); [reflexivity|].
    induction (split (strip g)) as [|w ws IH]; [reflexivity|].
    simpl in Hall |- *. apply andb_prop in Hall. destruct Hall as [Hw Hr].
    rewrite Hw. simpl. now apply IH.
Qed.

Lemma lower_char_idempotent c : lower_char (lower_char c) = lower_char c.
Proof. destruct c as [[] [] [] [] [] [] [] []]; reflexivity. Qed.

Lemma lower_idempotent s : lower (lower s) = lower s.
Proof.
  induction s as [|c s IH]; [reflexivity|].
  simpl. now rewrite lower_char_idempotent, IH.
Qed.

(** X19.  The planner is case-insensitive: an instruction and its
    lower-case form give the same phrase and the same pattern plan. *)
Theorem pattern_plan_ignores_case :
  forall (self : Tool) (instruction url : string),
    _extract_search_query self (lower instruction)
    = _extract_search_query self instruction /\
    _create_pattern_plan self (lower instruction) url
    = _create_pattern_plan self instruction url.
Proof.
  intros self instruction url.
  assert (He : _extract_search_query self (lower instruction)
               = _extract_search_query self instruction)
    by (unfold _extract_search_query; now rewrite lower_idempotent).
  split; [exact He|].
  unfold _create_pattern_plan. now rewrite lower_idempotent, He.
Qed.

(** X20.  Every pattern plan starts with a Navigate step followed by a
    Wait step, and each of its steps carries what its action reads: a
    Navigate step a target, a Wait step a positive pause, a Fill step the
    target search and the extracted phrase as value, a Click step a target
    and the optional flag; no other action occurs. *)
Theorem pattern_plan_steps_are_ready :
  forall (self : Tool) (instruction url : string),
    let plan := _create_pattern_plan self instruction url in
    map action (firstn 2 plan) = [NAVIGATE; WAIT] /\
    forallb (step_ready (_extract_search_query self instruction)) plan = true.
Proof.
  intros self instruction url. unfold _create_pattern_plan. cbv zeta.
  assert (Hq : forall q, (q =? q) = true) by apply String.eqb_refl.
  destruct (str_in "youtube" (lower instruction)).
  { destruct (str_in "play" (lower instruction)
              && str_in "first" (lower instruction));
      (split; [reflexivity|]); unfold step_ready; simpl;
      now rewrite Hq. }
  destruct (str_in "google" (lower instruction));
    [split; [reflexivity|]; unfold step_ready; simpl; now rewrite Hq|].
  destruct (str_in "amazon" (lower instruction));
    [split; [reflexivity|]; unfold step_ready; simpl; now rewrite Hq|].
  destruct (truthy url) eqn:Hu.
  - split; [reflexivity|]. unfold step_ready; simpl. now rewrite Hu.
  - split; [reflexivity|]. unfold step_ready; simpl. now rewrite Hq.
Qed.

(** X21.  The candidate list is empty exactly when the target is missing
    or empty or the action is neither fill nor click, and it never holds a
    selector twice. *)
Theorem smart_selectors_nonempty_and_distinct :
  forall (self : Tool) (target : option string) (action : string),
    (_get_smart_selectors self target action = [] <->
     otruthy target = false \/ (action <> "fill" /\ action <> "click")) /\
    NoDup (_get_smart_selectors self target action).
Proof.
  intros self target action. unfold _get_smart_selectors.
  destruct (otruthy target).
  2:{ split; [split; [now left|reflexivity]|constructor]. }
  simpl negb. cbv iota zeta.
  destruct (String.eqb_spec action "fill") as [Hf|Hf].
  { split.
    - split; [|intros [H|[H _]]; [discriminate|contradiction]].
      destruct (str_in "search" _); discriminate.
    - destruct (str_in "search" _);
        repeat (constructor; [simpl; intuition discriminate|]); constructor. }
  destruct (String.eqb_spec action "click") as [Hc|Hc].
  { split.
    - split; [|intros [H|[_ H]]; [discriminate|contradiction]].
      destruct (_ || _); [discriminate|].
      destruct (_ || _); discriminate.
    - destruct (_ || _);
        [repeat (constructor; [simpl; intuition discriminate|]); constructor|].
      destruct (_ || _);
        repeat (constructor; [simpl; intuition discriminate|]); constructor. }
  split; [|constructor]. split; [now right|reflexivity].
Qed.

(** ** Where the patterns cut the phrase *)

Lemma append_empty_r s : (s ++ "")%string = s.
Proof. induction s; simpl; [reflexivity|now f_equal]. Qed.

Lemma append_assoc (a b c : string) :
  ((a ++ b) ++ c)%string = (a ++ b ++ c)%string.
Proof. induction a; simpl; [reflexivity|now f_equal]. Qed.

Lemma length_append (a b : string) :
  String.length (a ++ b) = String.length a + String.length b.
Proof. induction a; simpl; [reflexivity|now f_equal]. Qed.

Lemma prefix_nil s : String.prefix "" s = true.
Proof. now destruct s. Qed.

Lemma prefix_cons a tok c s :
  String.prefix (String a tok) (String c s)
  = if ascii_dec a c then String.prefix tok s else false.
Proof. reflexivity. Qed.

Lemma prefix_append tok x y :
  String.prefix tok x = true -> String.prefix tok (x ++ y) = true.
Proof.
  revert x. induction tok as [|c tok IH]; intros x H; [apply prefix_nil|].
  destruct x as [|d x]; [discriminate|]. simpl in *.
  destruct (ascii_dec c d); [now apply IH|discriminate].
Qed.

Lemma prefix_strip tok s :
  String.prefix tok s = true -> exists r, Re.strip_prefix tok s = Some r.
Proof.
  revert s. induction tok as [|c tok IH]; intros s H; [now exists s|].
  destruct s as [|d s]; [discriminate|]. simpl in *.
  destruct (ascii_dec c d) as [->|]; [|discriminate].
  rewrite Ascii.eqb_refl. now apply IH.
Qed.

Lemma str_in_cons tok c s :
  str_in tok (String c s) = String.prefix tok (String c s) || str_in tok s.
Proof. reflexivity. Qed.

Lemma str_in_append_l tok a x :
  str_in tok x = true -> str_in tok (a ++ x) = true.
Proof.
  intros H. induction a as [|c a IH]; [exact H|].
  change (String c a ++ x)%string with (String c (a ++ x)).
  rewrite str_in_cons, IH. apply orb_true_r.
Qed.

Lemma str_in_prefix tok s : String.prefix tok s = true -> str_in tok s = true.
Proof.
  intros H. destruct s as [|c s].
  - change (String.prefix tok "" || false = true). now rewrite H.
  - now rewrite str_in_cons, H.
Qed.

Lemma str_in_append_r tok x b :
  str_in tok x = true -> str_in tok (x ++ b) = true.
Proof.
  induction x as [|c x IH]; intros H.
  - simpl in H. rewrite orb_false_r in H.
    apply str_in_prefix. destruct tok; [apply prefix_nil|discriminate].
  - rewrite str_in_cons in H. apply orb_true_iff in H. destruct H as [H|H].
    + apply str_in_prefix. now apply prefix_append.
    + change (String c x ++ b)%string with (String c (x ++ b)).
      rewrite str_in_cons, (IH H). apply orb_true_r.
Qed.

(** An occurrence of [tok] in [s] starts some suffix of [s]. *)
Lemma str_in_suffix tok s :
  str_in tok s = true ->
  exists a b, s = (a ++ b)%string /\ String.prefix tok b = true.
Proof.
  induction s as [|c s IH]; intros H.
  - simpl in H. rewrite orb_false_r in H. now exists "", "".
  - rewrite str_in_cons in H. apply orb_true_iff in H. destruct H as [H|H].
    + now exists "", (String c s).
    + destruct (IH H) as (a & b & -> & Hp). now exists (String c a), b.
Qed.

Lemma consumed_append pre s' : Re.consumed (pre ++ s') s' = pre.
Proof.
  unfold Re.consumed. rewrite length_append.
  replace (String.length pre + String.length s' - String.length s')
    with (String.length pre) by lia.
  induction pre as [|c pre IH]; simpl; [now destruct s'|now f_equal].
Qed.

Lemma all_chars_append p a b :
  all_chars p (a ++ b) = all_chars p a && all_chars p b.
Proof.
  induction a as [|c a IH]; [reflexivity|].
  simpl. now rewrite IH, andb_assoc.
Qed.

Section Combinators.
Context {X : Type}.

(** A property of the text still to be matched that survives dropping
    its first character. *)
Variable Q : string -> Prop.
Hypothesis Q_tail : forall c s, Q (String c s) -> Q s.

Lemma strip_prefix_keeps tok s r :
  Q s -> Re.strip_prefix tok s = Some r -> Q r.
Proof.
  revert s. induction tok as [|c tok IH]; intros s Hs; simpl.
  - now intros [= <-].
  - destruct s as [|d s]; [discriminate|].
    destruct (Ascii.eqb c d); [|discriminate].
    apply IH. now apply Q_tail in Hs.
Qed.

Lemma star_greedy_calls p s (k : string -> option X) x :
  Q s -> Re.star_greedy p s k = Some x -> exists s', Q s' /\ k s' = Some x.
Proof.
  induction s as [|c s IH]; intros Hs; simpl; [eauto|].
  destruct (p c); [|eauto].
  destruct (Re.star_greedy p s k) as [y|] eqn:E; simpl; [|eauto].
  intros [= <-]. apply IH; [|reflexivity]. now apply Q_tail in Hs.
Qed.

Lemma plus_greedy_calls p s (k : string -> option X) x :
  Q s -> Re.plus_greedy p s k = Some x -> exists s', Q s' /\ k s' = Some x.
Proof.
  destruct s as [|c s]; intros Hs; simpl; [discriminate|].
  destruct (p c); [|discriminate].
  apply star_greedy_calls. now apply Q_tail in Hs.
Qed.

Lemma opt_greedy_calls p s (k : string -> option X) x :
  Q s -> Re.opt_greedy p s k = Some x -> exists s', Q s' /\ k s' = Some x.
Proof.
  destruct s as [|c s]; intros Hs; simpl; [eauto|].
  destruct (p c); [|eauto].
  destruct (k s) as [y|] eqn:E; simpl; [|eauto].
  intros [= <-]. exists s. split; [now apply Q_tail in Hs|assumption].
Qed.

(** The lazy star stops at the first suffix the continuation accepts. *)
Lemma star_lazy_first p s (k : string -> option X) x :
  Re.star_lazy p s k = Some x ->
  exists pre s',
    s = (pre ++ s')%string /\ k s' = Some x /\
    all_chars p pre = true /\
    forall a b, pre = (a ++ b)%string -> b <> "" -> k (b ++ s')%string = None.
Proof.
  induction s as [|c s IH]; simpl.
  - destruct (k "") as [y|] eqn:E; [|discriminate].
    intros [= <-]. exists "", "". repeat split; [assumption|].
    intros a b Hab Hb. destruct a, b; try discriminate. contradiction.
  - destruct (k (String c s)) as [y|] eqn:E.
    + intros [= <-]. exists "", (String c s). repeat split; [assumption|].
      intros a b Hab Hb. destruct a, b; try discriminate. contradiction.
    + destruct (p c) eqn:Hc; [|discriminate].
      intros H. destruct (IH H) as (pre & s' & -> & Hk & Hp & Hfirst).
      exists (String c pre), s'.
      split; [reflexivity|]. split; [assumption|].
      split; [simpl; now rewrite Hc|].
      intros a b Hab Hb. destruct a as [|d a].
      * simpl in Hab. subst b. exact E.
      * simpl in Hab. injection Hab as _ Hab. now apply (Hfirst a b).
Qed.

Lemma plus_lazy_first p s (k : string -> option X) x :
  Re.plus_lazy p s k = Some x ->
  exists c pre s',
    s = String c (pre ++ s') /\ k s' = Some x /\
    all_chars p (String c pre) = true /\
    forall a b, pre = (a ++ b)%string -> b <> "" -> k (b ++ s')%string = None.
Proof.
  destruct s as [|c s]; simpl; [discriminate|].
  destruct (p c) eqn:Hc; [|discriminate].
  intros H.
  destruct (star_lazy_first _ _ _ _ H) as (pre & s' & -> & Hk & Hp & Hf).
  exists c, pre, s'. repeat split; try assumption. now rewrite Hc.
Qed.

Lemma stop_alt_calls s cap (k : string -> option string -> option X) x :
  Re.rmatch stop_alt s cap k = Some x -> exists s', k s' cap = Some x.
Proof.
  unfold stop_alt. cbn [Re.rmatch]. unfold Re.orelse.
  repeat match goal with
         | |- context [match Re.strip_prefix ?l s with _ => _ end] =>
             destruct (Re.strip_prefix l s)
         | |- context [match k ?a ?b with _ => _ end] =>
             destruct (k a b) eqn:?
         | |- context [if Re.at_end s then _ else _] =>
             destruct (Re.at_end s)
         end;
    try discriminate; intros [= <-]; eauto.
Qed.

Lemma orelse_l (a b : option X) : a <> None -> Re.orelse a b <> None.
Proof. destruct a; [discriminate|contradiction]. Qed.

Lemma orelse_r (a b : option X) : b <> None -> Re.orelse a b <> None.
Proof. destruct a; [discriminate|trivial]. Qed.

(** The stop group accepts a text that starts with one of its literals. *)
Lemma stop_alt_accepts tok t cap (k : string -> option string -> option X) :
  (forall s c, k s c <> None) ->
  In tok stop_tokens -> String.prefix tok t = true ->
  Re.rmatch stop_alt t cap k <> None.
Proof.
  intros Hk Hin Hp. destruct (prefix_strip _ _ Hp) as (r & Hr).
  unfold stop_alt. cbn [Re.rmatch].
  simpl in Hin.
  destruct Hin as [<-|[<-|[<-|[<-|[<-|[<-|[]]]]]]];
    repeat first
      [ apply orelse_l; rewrite Hr; apply Hk
      | apply orelse_r ].
Qed.

End Combinators.

Lemma opt_greedy_skip {X} p c s (k : string -> option X) :
  p c = false -> Re.opt_greedy p (String c s) k = k (String c s).
Proof. intros H. simpl. now rewrite H. Qed.

Lemma star_greedy_skip {X} p c s (k : string -> option X) :
  p c = false -> Re.star_greedy p (String c s) k = k (String c s).
Proof. intros H. simpl. now rewrite H. Qed.

(** A stop literal starts with a character that is neither a quote nor
    whitespace. *)
Lemma token_head tok t :
  In tok stop_tokens -> String.prefix tok t = true ->
  exists c t', t = String c t' /\ is_quote c = false /\ isspace c = false.
Proof.
  intros Hin Hp. destruct t as [|c t'].
  - simpl in Hin.
    destruct Hin as [<-|[<-|[<-|[<-|[<-|[<-|[]]]]]]]; discriminate.
  - exists c, t'. split; [reflexivity|]. simpl in Hin.
    destruct Hin as [<-|[<-|[<-|[<-|[<-|[<-|[]]]]]]];
      rewrite prefix_cons in Hp;
      match type of Hp with
      | context [ascii_dec ?a c] => destruct (ascii_dec a c) as [<-|]
      end; try discriminate; split; reflexivity.
Qed.

(** What follows group 1 in the patterns accepts a text that starts with
    a stop literal. *)
Lemma after_group_accepts {X} tok t (cap : string -> option string)
      (k : string -> option string -> option X) :
  (forall s c, k s c <> None) ->
  In tok stop_tokens -> String.prefix tok t = true ->
  Re.opt_greedy is_quote t
    (fun s5 => Re.star_greedy isspace s5
                 (fun s6 => Re.rmatch stop_alt s6 (cap t) k)) <> None.
Proof.
  intros Hk Hin Hp.
  destruct (token_head _ _ Hin Hp) as (c & t' & -> & Hq & Hs).
  rewrite opt_greedy_skip, star_greedy_skip by assumption.
  now apply (stop_alt_accepts tok).
Qed.

(** A match of one of the patterns: group 1 is not empty, holds no quote,
    and no stop literal occurs in it after its first character. *)
Lemma match_at_shape (q : ascii -> bool) kw s g :
  all_chars q s = true ->
  Re.match_at (search_pattern kw) s = Some g ->
  exists c pre,
    g = String c pre /\
    all_chars q g = true /\
    all_chars not_quote g = true /\
    forall tok, In tok stop_tokens -> str_in tok pre = false.
Proof.
  intros Hs. unfold Re.match_at, search_pattern. cbn [Re.rmatch].
  assert (Qt : forall c s0, all_chars q (String c s0) = true ->
                            all_chars q s0 = true)
    by (intros c s0 H; simpl in H; now apply andb_prop in H).
  destruct (Re.strip_prefix kw s) as [s1|] eqn:E1; [|discriminate].
  pose proof (strip_prefix_keeps _ Qt _ _ _ Hs E1) as Hs1.
  intros H.
  apply (plus_greedy_calls _ Qt) in H; [|assumption].
  destruct H as (s2 & Hs2 & H).
  apply (opt_greedy_calls _ Qt) in H; [|assumption].
  destruct H as (s3 & Hs3 & H).
  apply plus_lazy_first in H.
  destruct H as (c & pre & s4 & -> & Hk & Hnq & Hfirst).
  change (String c (pre ++ s4)) with (String c pre ++ s4)%string in *.
  rewrite consumed_append in Hk.
  assert (Hg : g = String c pre).
  { apply (opt_greedy_calls (fun _ => True)) in Hk; [|trivial|trivial].
    destruct Hk as (s5 & _ & Hk).
    apply (star_greedy_calls (fun _ => True)) in Hk; [|trivial|trivial].
    destruct Hk as (s6 & _ & Hk).
    apply stop_alt_calls in Hk. destruct Hk as (s7 & Hk).
    now injection Hk as <-. }
  exists c, pre. split; [assumption|].
  split; [|split].
  - rewrite Hg. rewrite all_chars_append in Hs3.
    now apply andb_prop in Hs3.
  - now rewrite Hg.
  - intros tok Hin. destruct (str_in tok pre) eqn:Ein; [|reflexivity].
    exfalso. destruct (str_in_suffix _ _ Ein) as (a & b & -> & Hp).
    assert (Hb : b <> "").
    { intros ->. simpl in Hin.
      destruct Hin as [<-|[<-|[<-|[<-|[<-|[<-|[]]]]]]]; discriminate. }
    pose proof (Hfirst a b eq_refl Hb) as Hnone.
    revert Hnone.
    apply (after_group_accepts tok (b ++ s4)
             (fun s' => Some (Re.consumed (String c (a ++ b) ++ s4) s'))).
    + discriminate.
    + assumption.
    + now apply prefix_append.
Qed.

Lemma search_matches_somewhere r s g :
  Re.search r s = Some g ->
  exists a s', s = (a ++ s')%string /\ Re.match_at r s' = Some g.
Proof.
  induction s as [|c s IH]; simpl.
  - destruct (Re.match_at r "") eqn:E; [|discriminate].
    intros [= <-]. now exists "", "".
  - destruct (Re.match_at r (String c s)) eqn:E.
    + intros [= <-]. now exists "", (String c s).
    + intros H. destruct (IH H) as (a & s' & -> & Hm).
      now exists (String c a), s'.
Qed.

Lemma first_match_shape (q : ascii -> bool) s g :
  all_chars q s = true ->
  first_match patterns s = Some g ->
  exists c pre,
    g = String c pre /\
    all_chars q g = true /\
    all_chars not_quote g = true /\
    forall tok, In tok stop_tokens -> str_in tok pre = false.
Proof.
  intros Hs. unfold patterns, first_match.
  repeat match goal with
         | |- context [Re.search ?r s] =>
             destruct (Re.search r s) as [g'|] eqn:?
         end;
    try discriminate; intros [= <-];
    match goal with
    | H : Re.search _ s = Some _ |- _ =>
        apply search_matches_somewhere in H;
        destruct H as (a & s' & -> & Hm)
    end;
    rewrite all_chars_append in Hs; apply andb_prop in Hs;
    destruct Hs as [_ Hs]; exact (match_at_shape q _ _ _ Hs Hm).
Qed.

(** ** Words and the text they come from *)

Lemma split_parts s :
  (forall w, In w (split s) ->
             exists a b, s = (a ++ w ++ b)%string) /\
  (starts_word s = true ->
   exists w ws b, split s = w :: ws /\ s = (w ++ b)%string).
Proof.
  induction s as [|c s [IH1 IH2]]; [split; [intros w []|discriminate]|].
  simpl. destruct (isspace c) eqn:Hc.
  - split; [|discriminate].
    intros w Hw. destruct (IH1 w Hw) as (a & b & ->).
    now exists (String c a), b.
  - destruct (starts_word s) eqn:Hs.
    + destruct (IH2 eq_refl) as (w0 & ws & b0 & E & Hs0).
      rewrite E. split.
      * intros w [<-|Hw].
        -- exists "", b0. simpl. now rewrite Hs0.
        -- destruct (IH1 w) as (a & b & ->); [rewrite E; now right|].
           now exists (String c a), b.
      * intros _. exists (String c w0), ws, b0.
        split; [reflexivity|]. simpl. now rewrite Hs0.
    + split.
      * intros w [<-|Hw]; [now exists "", s|].
        destruct (IH1 w Hw) as (a & b & ->). now exists (String c a), b.
      * intros _. now exists (String c ""), (split s), s.
Qed.

Lemma lstrip_suffix s : exists a, s = (a ++ lstrip s)%string.
Proof.
  induction s as [|c s (a & IH)]; [now exists ""|].
  simpl. destruct (isspace c); [|now exists ""].
  exists (String c a). simpl. now rewrite <- IH.
Qed.

Lemma rstrip_prefix s : exists b, s = (rstrip s ++ b)%string.
Proof.
  induction s as [|c s (b & IH)]; [now exists ""|].
  simpl. destruct (rstrip s) as [|d r].
  - destruct (isspace c); [now exists (String c s)|now exists s].
  - exists b. simpl in *. now rewrite <- IH.
Qed.

(** A word of the stripped text is a piece of the text. *)
Lemma strip_word_inside g w :
  In w (split (strip g)) -> exists a b, g = (a ++ w ++ b)%string.
Proof.
  intros Hw. destruct (proj1 (split_parts _) w Hw) as (a & b & E).
  unfold strip in E.
  destruct (lstrip_suffix g) as (a0 & Hg).
  destruct (rstrip_prefix (lstrip g)) as (b0 & Hl).
  exists (a0 ++ a)%string, (b ++ b0)%string.
  rewrite Hg at 1. rewrite Hl at 1. rewrite E.
  now rewrite !append_assoc.
Qed.

Lemma all_chars_inside p a w b :
  all_chars p (a ++ w ++ b) = true -> all_chars p w = true.
Proof.
  rewrite !all_chars_append. intros H.
  apply andb_prop in H. destruct H as [_ H].
  now apply andb_prop in H.
Qed.

Lemma all_chars_join p ws :
  p " "%char = true ->
  Forall (fun w => all_chars p w = true) ws ->
  all_chars p (join " " ws) = true.
Proof.
  intros Hsp. induction 1 as [|w ws Hw Hws IH]; [reflexivity|].
  unfold join in *. destruct ws as [|w' ws']; [assumption|].
  change (String.concat " " (w :: w' :: ws'))
    with (w ++ String " " (String.concat " " (w' :: ws')))%string.
  rewrite all_chars_append, Hw.
  change (all_chars p (String " " (String.concat " " (w' :: ws'))))
    with (p " "%char && all_chars p (String.concat " " (w' :: ws'))).
  now rewrite Hsp, IH.
Qed.

Lemma all_chars_true s : all_chars (fun _ => true) s = true.
Proof. induction s; auto. Qed.

(** The words of a phrase extracted by a pattern are words of group 1. *)
Lemma matched_phrase_words self instruction g :
  first_match patterns (lower instruction) = Some g ->
  forall w, In w (split (_extract_search_query self instruction)) ->
            In w (split (strip g)).
Proof.
  intros Hm w. unfold _extract_search_query. rewrite Hm.
  rewrite split_join by (apply Forall_filter; apply split_all_words).
  intros Hw. now apply filter_In in Hw.
Qed.

(** X22.  When one of the patterns matches, the capture stops at the first
    place where a stop literal follows: no word of the phrase holds a
    comma, a full stop or the letters and, then, play or click anywhere
    after its first character.  A phrase such as thailand itinerary can
    therefore not be returned. *)
Theorem matched_phrase_is_cut_at_stop_literals :
  forall (self : Tool) (instruction w tok : string),
    first_match patterns (lower instruction) <> None ->
    In w (split (_extract_search_query self instruction)) ->
    In tok stop_tokens ->
    str_in tok (tail w) = false.
Proof.
  intros self instruction w tok Hm Hw Htok.
  destruct (first_match patterns (lower instruction)) as [g|] eqn:E;
    [clear Hm|contradiction].
  apply (matched_phrase_words self _ _ E) in Hw.
  assert (Hword : is_word w = true).
  { pose proof (split_all_words (strip g)) as Hall.
    rewrite Forall_forall in Hall. now apply Hall. }
  destruct (strip_word_inside _ _ Hw) as (a & b & Hg).
  destruct (first_match_shape (fun _ => true) _ _ (all_chars_true _) E)
    as (c & pre & Hshape & _ & _ & Hcut).
  specialize (Hcut tok Htok).
  destruct (str_in tok (tail w)) eqn:Ein; [exfalso|reflexivity].
  destruct w as [|d w']; [discriminate|]. simpl in Ein.
  rewrite Hshape in Hg. destruct a as [|c' a'].
  - simpl in Hg. injection Hg as _ ->.
    rewrite (str_in_append_r _ _ _ Ein) in Hcut. discriminate.
  - simpl in Hg. injection Hg as _ ->.
    assert (Hin : str_in tok (String d w') = true)
      by (rewrite str_in_cons, Ein; apply orb_true_r).
    apply (str_in_append_r _ _ b) in Hin.
    apply (str_in_append_l _ a') in Hin.
    change (String d w' ++ b)%string with (String d (w' ++ b)) in Hin.
    rewrite Hin in Hcut. discriminate.
Qed.

Lemma matched_phrase_is_cut_witness :
  str_in "and" (tail "thail") = false.
Proof.
  apply (matched_phrase_is_cut_at_stop_literals Stub.fresh_tool
           "Go to YouTube and search for thailand itinerary 10 days"
           "thail" "and").
  - vm_compute. discriminate.
  - vm_compute. now left.
  - simpl. auto.
Defined.

(** X23.  When one of the patterns matches, the phrase holds no quote
    character: quotes around the searched text are dropped. *)
Theorem matched_phrase_has_no_quote :
  forall (self : Tool) (instruction : string),
    first_match patterns (lower instruction) <> None ->
    all_chars not_quote (_extract_search_query self instruction) = true.
Proof.
  intros self instruction Hm.
  destruct (first_match patterns (lower instruction)) as [g|] eqn:E;
    [clear Hm|contradiction].
  destruct (first_match_shape (fun _ => true) _ _ (all_chars_true _) E)
    as (c & pre & _ & _ & Hnq & _).
  destruct (extract_is_join self instruction) as (ws & Hj & Hws).
  pose proof (matched_phrase_words self _ _ E) as Hin.
  rewrite Hj in Hin |- *. rewrite split_join in Hin by assumption.
  apply all_chars_join; [reflexivity|].
  apply Forall_forall. intros w Hw.
  destruct (strip_word_inside _ _ (Hin w Hw)) as (a & b & Hg).
  rewrite Hg in Hnq. now apply all_chars_inside in Hnq.
Qed.

Lemma matched_phrase_has_no_quote_witness :
  all_chars not_quote
    (_extract_search_query Stub.fresh_tool
       "Go to YouTube and search for 'funny cats' then play first video")
  = true.
Proof.
  apply (matched_phrase_has_no_quote Stub.fresh_tool
           "Go to YouTube and search for 'funny cats' then play first video").
  vm_compute. discriminate.
Defined.

Lemma lower_is_lower s : all_chars is_lower_char (lower s) = true.
Proof.
  induction s as [|c s IH]; [reflexivity|].
  simpl. rewrite IH. unfold is_lower_char.
  rewrite lower_char_idempotent, Ascii.eqb_refl. reflexivity.
Qed.

Lemma lower_fixed s : all_chars is_lower_char s = true -> lower s = s.
Proof.
  induction s as [|c s IH]; [reflexivity|].
  simpl. intros H. apply andb_prop in H. destruct H as [Hc Hs].
  unfold is_lower_char in Hc. apply Ascii.eqb_eq in Hc.
  now rewrite Hc, IH.
Qed.

(** X24.  The phrase is always in lower case, whatever the case of the
    instruction. *)
Theorem extract_search_query_is_lower_case :
  forall (self : Tool) (instruction : string),
    lower (_extract_search_query self instruction)
    = _extract_search_query self instruction.
Proof.
  intros self instruction. apply lower_fixed.
  pose proof (lower_is_lower instruction) as Hl.
  destruct (first_match patterns (lower instruction)) as [g|] eqn:E.
  - destruct (first_match_shape is_lower_char _ _ Hl E)
      as (c & pre & _ & Hg & _ & _).
    destruct (extract_is_join self instruction) as (ws & Hj & Hws).
    pose proof (matched_phrase_words self _ _ E) as Hin.
    rewrite Hj in Hin |- *. rewrite split_join in Hin by assumption.
    apply all_chars_join; [reflexivity|].
    apply Forall_forall. intros w Hw.
    destruct (strip_word_inside _ _ (Hin w Hw)) as (a & b & Hgw).
    rewrite Hgw in Hg. now apply all_chars_inside in Hg.
  - unfold _extract_search_query. rewrite E.
    destruct (filter is_meaningful (split (lower instruction)))
      as [|m ms] eqn:Ef; [reflexivity|].
    apply all_chars_join; [reflexivity|].
    apply Forall_firstn. rewrite <- Ef. apply Forall_filter.
    apply Forall_forall. intros w Hw.
    destruct (proj1 (split_parts _) w Hw) as (a & b & Hs).
    rewrite Hs in Hl. now apply all_chars_inside in Hl.
Qed.

End PlannerMore.

(* ================================================================== *)
(** * Further properties of reports and navigation                     *)
(* ================================================================== *)

Module ReportMore.
Import PyStr Planner Executor Session Vocabulary Further.

Section WithRuntime.
Context {P : Type} {R : Runtime P}.

Lemma optional_click_step_succeeds (step : AutomationStep) (w : World P) :
  action step = CLICK -> optional step = true ->
  exists w', _execute_step step w = (Ok true, w').
Proof.
  intros Ha Ho. unfold _execute_step, catch. rewrite Ha.
  unfold bind at 1.
  destruct (ExecutorMore.smart_click_outcome step w)
    as (b & w1 & -> & Hb).
  assert (b = true) as -> by (destruct Hb as [[Hb _]|Hb]; congruence).
  unfold wait_after_action, bind, sleep, ret.
  destruct (true && (wait_after step >? 0)%Z); eauto.
Qed.

(** X25.  An optional Click step whose fields hold values of the
    annotated types, with a [wait_after] of at most [max_pause], is
    reported as completed, also when nothing on the page could be
    clicked: for such a step the line for a skipped optional step is not
    produced.  (It is produced for a Click step of a language-model plan
    whose target is not a string.) *)
Theorem optional_click_is_reported_completed :
  forall (raw : RawStep) (step : AutomationStep)
         (rest : list AutomationStep) (i : nat)
         (results : list entry) (w : World P),
    typed_step raw = Some step ->
    (wait_after step <= max_pause)%Z ->
    action step = CLICK -> optional step = true ->
    exists w',
      run_steps (step :: rest) i results w =
      run_steps rest (S i)
        (results ++ [StepStarted i (description step); StepCompleted i]) w'.
Proof.
  intros raw step rest i results w _ _ Ha Ho. simpl.
  unfold bind at 1, catch. unfold bind at 1.
  destruct (optional_click_step_succeeds step w Ha Ho) as (w' & ->).
  exists w'. unfold ret. now rewrite <- app_assoc.
Qed.

Lemma scheme_completed t :
  startswith (if startswith t "http" then t else ("https://" ++ t)%string)
             "http" = true.
Proof.
  destruct (startswith t "http") eqn:E; [exact E|].
  unfold startswith.
  change ("https://" ++ t)%string
    with (String "h" (String "t" (String "t" (String "p"
            (String "s" (String ":" (String "/" (String "/" t)))))))).
  rewrite !PlannerMore.prefix_cons.
  repeat (destruct (ascii_dec _ _); [|congruence]).
  now destruct t.
Qed.

(** X26.  After a successful navigation [current_url] starts with http:
    a target without that prefix has been completed with the https
    scheme. *)
Theorem navigated_url_starts_with_http :
  forall (step : AutomationStep) (w : World P),
    fst (_navigate step w) = Ok true ->
    startswith (current_url (self (snd (_navigate step w)))) "http" = true.
Proof.
  intros step w H.
  pose proof (ExecutorMore.navigate_url_cases step w) as Hx.
  rewrite H in Hx. destruct Hx as (t & _ & ->). apply scheme_completed.
Qed.

End WithRuntime.

Import Stub.

Lemma optional_click_is_reported_completed_witness :
  exists w',
    run_steps (R := sim_runtime empty_page) [optional_click] 7 [] live_world
    = run_steps (R := sim_runtime empty_page) [] 8
        [StepStarted 7 "Click first video"; StepCompleted 7] w'.
Proof.
  apply (optional_click_is_reported_completed (R := sim_runtime empty_page)
           (raw_of_step optional_click) optional_click [] 7 [] live_world).
  - reflexivity.
  - vm_compute. discriminate.
  - reflexivity.
  - reflexivity.
Defined.

Lemma navigated_url_starts_with_http_witness :
  startswith
    (current_url
       (self (snd (_navigate (R := sim_runtime accepting_page)
                     (with_target "example.com" (Step NAVIGATE "Open the site"))
                     live_world))))
    "http" = true.
Proof.
  apply (navigated_url_starts_with_http (R := sim_runtime accepting_page)
           (with_target "example.com" (Step NAVIGATE "Open the site"))
           live_world).
  reflexivity.
Defined.

End ReportMore.

(* ================================================================== *)
(** * Run-time steps and the conversion of a language-model plan       *)
(* ================================================================== *)

Module RawStepFacts.
Import PyStr Planner Executor Session Vocabulary Further Stub.

(** Every step of the data model is a run-time step with fields of the
    annotated types. *)
Lemma typed_raw_of_step (s : AutomationStep) :
  typed_step (raw_of_step s) = Some s.
Proof. destruct s as [a d [t|] [v|] [sel|] ms pause o]; reflexivity. Qed.

(** A run-time step with fields of the annotated types is the run-time
    object of its step. *)
Lemma raw_of_typed_step (raw : RawStep) (s : AutomationStep) :
  typed_step raw = Some s -> raw = raw_of_step s.
Proof.
  destruct raw as [a d t v sel ms pause o]. unfold typed_step. simpl.
  destruct d; try discriminate.
  destruct t; try discriminate;
    destruct v; try discriminate;
    destruct sel; try discriminate;
    destruct ms; try discriminate;
    destruct pause; try discriminate;
    destruct o; try discriminate;
    intros [= <-]; reflexivity.
Qed.

(** An item that gives only the action and the description is converted
    to the step the dataclass defaults give. *)
Lemma convert_step_defaults (name d : string) (a : ActionType) :
  action_of_value name = Some a ->
  convert_step (PDict [("action", PStr name); ("description", PStr d)])
  = Ok (raw_of_step (Step a d)).
Proof. intros H. unfold convert_step. simpl. rewrite H. reflexivity. Qed.

(** The second item of the example plan of the prompt. *)
Example convert_wait_item :
  convert_step (PDict [("action", PStr "wait");
                       ("description", PStr "Wait for page load");
                       ("wait_after", PInt 3000)])
  = Ok (raw_of_step (with_wait_after 3000 (Step WAIT "Wait for page load"))).
Proof. reflexivity. Qed.

(** A null [wait_after] is stored as it is: the converted step does not
    have fields of the annotated types. *)
Example convert_null_wait_after :
  exists raw,
    convert_step (PDict [("action", PStr "wait");
                         ("description", PStr "Wait for page load");
                         ("wait_after", PNone)]) = Ok raw /\
    raw_wait_after raw = PNone /\
    typed_step raw = None.
Proof. eexists. repeat split. Qed.

(** One item that cannot be converted makes the whole conversion raise;
    a reply that is an empty object gives the empty plan. *)
Example convert_plan_cases :
  convert_plan (PList [PDict [("action", PStr "wait");
                              ("description", PStr "Wait")];
                       PDict [("action", PStr "press");
                              ("description", PStr "Press Enter")]])
  = Raise /\
  convert_plan (PDict []) = Ok [] /\
  convert_plan (PInt 3) = Raise.
Proof. repeat split. Qed.

Example parse_int_cases :
  parse_int "500" = Some 500%Z /\
  parse_int " -1_000 " = Some (-1000)%Z /\
  parse_int "down" = None /\
  parse_int "1__0" = None /\
  parse_int "" = None.
Proof. repeat split. Qed.

(** The stub scrolls by a distance given in digits. *)
Example scroll_by_distance :
  fst (_scroll (R := sim_runtime accepting_page)
         (with_value "500" (Step SCROLL "Scroll down")) live_world)
  = Ok true.
Proof. reflexivity. Qed.

End RawStepFacts.
